(** * sinesp-api: the request pipeline of [src/index.js]

    A shallow embedding of the plate validator, the configuration, the
    identity and token generators, the request envelope, the retrying
    transport and the response decoder, with the properties of the
    specification stated over it. *)

From Stdlib Require Import String Ascii.
From Stdlib Require Import ZArith NArith List Bool Lia DecimalString.
From Stdlib Require Import Floats.SpecFloat.
From Equations Require Import Equations.
Import ListNotations.

Set Implicit Arguments.
Local Open Scope N_scope.

(** ** JavaScript strings

    A JavaScript string is a sequence of UTF-16 code units. *)

Definition jschar := N.
Definition jsstring := list jschar.

(** A literal of the source, given here by its ASCII text. *)
Definition u (s : string) : jsstring :=
  map N_of_ascii (list_ascii_of_string s).

Fixpoint jsstring_eqb (a b : jsstring) : bool :=
  match a, b with
  | [], [] => true
  | x :: a', y :: b' => N.eqb x y && jsstring_eqb a' b'
  | _, _ => false
  end.

(** ** Regular expressions

    The two regular expressions of the source are sequences of
    assertions and of character classes under a fixed repetition count;
    neither has the [g] or [y] flag, so every execution starts at index 0
    and [lastIndex] plays no role. *)

Module RegExp.

Inductive Term :=
| AssertStart                                   (* ^ *)
| AssertEnd                                     (* $ *)
| ClassTimes (invert : bool) (ranges : list (N * N)) (count : nat).
                                                (* [..]{count}, [^..]{count} *)

Record t := {
  pattern : list Term;
  ignoreCase : bool;
  multiline : bool;
}.

(** LineTerminator: LF, CR, LS, PS. *)
Definition isLineTerminator (c : jschar) : bool :=
  N.eqb c 10 || N.eqb c 13 || N.eqb c 8232 || N.eqb c 8233.

(** Canonicalize of a pattern without the [u] flag: the upper-case
    mapping, which is never allowed to take a code unit of 128 or more
    to one below 128. On code units below 128 it is the ASCII mapping
    written here; above, it stays above, so against classes whose
    ranges lie below 128 (both classes of the source) the identity is
    indistinguishable from it. *)
Definition Canonicalize (re : t) (ch : jschar) : jschar :=
  if ignoreCase re && (N.leb 97 ch && N.leb ch 122) then ch - 32 else ch.

Definition members (ranges : list (N * N)) : list jschar :=
  flat_map (fun r => map (fun i => fst r + N.of_nat i)
                         (seq 0%nat (N.to_nat (snd r + 1 - fst r)))) ranges.

(** CharacterSetMatcher: some member of the class has the same
    canonical form as the input character. *)
Definition CharacterSetMatcher (re : t) (invert : bool) (ranges : list (N * N))
           (ch : jschar) : bool :=
  let found :=
    existsb (fun a => N.eqb (Canonicalize re a) (Canonicalize re ch))
            (members ranges) in
  if invert then negb found else found.

(** The matcher state is the code unit before the current position
    (none at index 0) and the rest of the input. *)
Fixpoint matchClass (re : t) (invert : bool) (ranges : list (N * N)) (count : nat)
         (prev : option jschar) (rest : jsstring) : option (option jschar * jsstring) :=
  match count with
  | O => Some (prev, rest)
  | S count' =>
      match rest with
      | [] => None
      | ch :: rest' =>
          if CharacterSetMatcher re invert ranges ch
          then matchClass re invert ranges count' (Some ch) rest'
          else None
      end
  end.

Definition matchTerm (re : t) (tm : Term) (prev : option jschar) (rest : jsstring)
  : option (option jschar * jsstring) :=
  match tm with
  | AssertStart =>
      match prev with
      | None => Some (prev, rest)
      | Some c => if multiline re && isLineTerminator c then Some (prev, rest) else None
      end
  | AssertEnd =>
      match rest with
      | [] => Some (prev, rest)
      | c :: _ => if multiline re && isLineTerminator c then Some (prev, rest) else None
      end
  | ClassTimes invert ranges count => matchClass re invert ranges count prev rest
  end.

Fixpoint matchTerms (re : t) (tms : list Term) (prev : option jschar) (rest : jsstring)
  : option jsstring :=
  match tms with
  | [] => Some rest
  | tm :: tms' =>
      match matchTerm re tm prev rest with
      | Some (prev', rest') => matchTerms re tms' prev' rest'
      | None => None
      end
  end.

Record MatchResult := {
  before : jsstring;       (* input up to the match's index *)
  matched : jsstring;
  after : jsstring;
}.

(** RegExpBuiltinExec with [lastIndex = 0]: the first index at which
    the pattern matches. [beforeRev] is the input already passed, last
    code unit first. *)
Fixpoint execFrom (re : t) (beforeRev : jsstring) (rest : jsstring) : option MatchResult :=
  match matchTerms re (pattern re) (hd_error beforeRev) rest with
  | Some rest' =>
      Some {| before := rev beforeRev;
              matched := firstn (length rest - length rest')%nat rest;
              after := rest' |}
  | None =>
      match rest with
      | [] => None
      | ch :: rest' => execFrom re (ch :: beforeRev) rest'
      end
  end.

Definition exec (re : t) (s : jsstring) : option MatchResult := execFrom re [] s.

(** RegExp.prototype.test *)
Definition test (re : t) (s : jsstring) : bool :=
  match exec re s with Some _ => true | None => false end.

(** String.prototype.replace with a regular expression that is not
    global and a replacement string without [$] patterns: the first
    match only is replaced. *)
Definition replace (s : jsstring) (re : t) (replacement : jsstring) : jsstring :=
  match exec re s with
  | Some m => before m ++ replacement ++ after m
  | None => s
  end.

End RegExp.

(** ** Exceptions and results *)

Inductive exception :=
| Error (message : jsstring)
| TypeError.

(** The settlement of a promise: rejected with an exception or
    fulfilled with a value. *)
Definition result (A : Type) := (exception + A)%type.

(** ** The plate validator *)

(** [/^[a-zA-Z]{3}[0-9]{4}$/im] *)
Definition PLATE_FORMAT : RegExp.t :=
  {| RegExp.pattern :=
       [RegExp.AssertStart;
        RegExp.ClassTimes false [(97, 122); (65, 90)] 3;
        RegExp.ClassTimes false [(48, 57)] 4;
        RegExp.AssertEnd];
     RegExp.ignoreCase := true;
     RegExp.multiline := true |}.

(** [/[^a-zA-Z0-9]/i] *)
Definition SPECIAL : RegExp.t :=
  {| RegExp.pattern := [RegExp.ClassTimes true [(97, 122); (65, 90); (48, 57)] 1];
     RegExp.ignoreCase := true;
     RegExp.multiline := false |}.

(** 'Formato de placa inválido! Utilize o formato "AAA9999" ou "AAA-9999".' *)
Definition invalidPlateMessage : jsstring :=
  u "Formato de placa inv" ++ [225] ++ u "lido! Utilize o formato "
    ++ [34] ++ u "AAA9999" ++ [34] ++ u " ou "
    ++ [34] ++ u "AAA-9999" ++ [34] ++ u ".".

(** The error the specification calls ValidationError. *)
Definition ValidationError : exception := Error invalidPlateMessage.

Definition validate (plate : jsstring) : result jsstring :=
  let plateToUse := RegExp.replace plate SPECIAL [] in
  if negb (RegExp.test PLATE_FORMAT plateToUse)
  then inl ValidationError
  else inr plateToUse.

(** ** Predicates on plates, for the statements below *)

(** [A-Za-z], [0-9] and their union, as predicates on code units. *)
Definition isLetter (c : jschar) : bool :=
  (N.leb 65 c && N.leb c 90) || (N.leb 97 c && N.leb c 122).

Definition isDigit (c : jschar) : bool := N.leb 48 c && N.leb c 57.

Definition isAlnum (c : jschar) : bool := isLetter c || isDigit c.

Definition isSpecial (c : jschar) : bool := negb (isAlnum c).

(** A whole string of the form [^[A-Za-z]{3}[0-9]{4}$]. *)
Definition matches_plate (p : jsstring) : bool :=
  match p with
  | [a; b; c; d; e; f; g] =>
      isLetter a && isLetter b && isLetter c
      && isDigit d && isDigit e && isDigit f && isDigit g
  | _ => false
  end.

(** Every character that is not a letter or a digit removed. *)
Definition strip (s : jsstring) : jsstring := filter isAlnum s.

(** The number of characters that are not letters or digits. *)
Definition specials (s : jsstring) : nat := List.length (filter isSpecial s).

(** The first character that satisfies [p] removed. *)
Fixpoint dropFirst (p : jschar -> bool) (s : jsstring) : jsstring :=
  match s with
  | [] => []
  | c :: s' => if p c then s' else c :: dropFirst p s'
  end.

Definition noLineTerminator (s : jsstring) : bool :=
  forallb (fun c => negb (RegExp.isLineTerminator c)) s.

(** ** Numbers

    A JavaScript Number is an IEEE 754 binary64 value; the operations are
    those of the Standard Library's specification of floating-point
    arithmetic at precision 53. Quantities the source only counts
    (attempts, delays in milliseconds, timeouts, ports, the fields of a
    date) are integer-valued Numbers far below 2^53 and are kept in [Z]. *)

Local Open Scope Z_scope.

Definition number := spec_float.

Definition prec : Z := 53.
Definition emax : Z := 1024.

Definition Number_ofZ (z : Z) : number := binary_normalize prec emax z 0 false.
Definition Number_add : number -> number -> number := SFadd prec emax.
Definition Number_sub : number -> number -> number := SFsub prec emax.
Definition Number_mul : number -> number -> number := SFmul prec emax.
Definition Number_div : number -> number -> number := SFdiv prec emax.

(** A decimal literal with [k] digits after the point: the binary64
    value nearest to [n / 10^k], which the correctly rounded quotient of
    the two exactly representable integers is. *)
Definition Number_literal (n : Z) (k : Z) : number :=
  Number_div (Number_ofZ n) (Number_ofZ (10 ^ k)).

(** Math.sqrt *)
Definition Math_sqrt : number -> number := SFsqrt prec emax.

(** Math.floor: the largest integer not above the argument; NaN, the
    infinities and the zeros are returned as they are. *)
Definition Math_floor (x : number) : number :=
  match x with
  | S754_finite s m e =>
      if 0 <=? e then x
      else
        match cond_Zopp s (Zpos m) / 2 ^ (- e) with
        | 0 => S754_zero s
        | q => Number_ofZ q
        end
  | _ => x
  end.

(** The integer a Number stands for, when it is one. *)
Definition integerValue (x : number) : option Z :=
  match x with
  | S754_zero _ => Some 0
  | S754_finite s m e =>
      if 0 <=? e then Some (cond_Zopp s (Zpos m * 2 ^ e))
      else if Zpos m mod 2 ^ (- e) =? 0 then Some (cond_Zopp s (Zpos m / 2 ^ (- e)))
      else None
  | _ => None
  end.

(** The decimal digits of an integer, with a minus sign when negative. *)
Definition decimal (z : Z) : jsstring := u (NilZero.string_of_int (Z.to_int z)).

(** ** Values

    The documents the source builds and reads: text, numbers, and
    objects as ordered lists of properties. *)

#[warnings="-register-all"]
Inductive value :=
| Undefined
| Str (s : jsstring)
| Num (x : number)
| Obj (fields : list (jsstring * value)).

Fixpoint lookup (key : jsstring) (fields : list (jsstring * value)) : value :=
  match fields with
  | [] => Undefined
  | (k, v) :: fields' => if jsstring_eqb k key then v else lookup key fields'
  end.

(** Property access [v.key] and the step of a destructuring pattern:
    a TypeError on undefined. None of the names the source reads is a
    property of a string or of a number. *)
Definition Get (v : value) (key : jsstring) : result value :=
  match v with
  | Undefined => inl TypeError
  | Obj fields => inr (lookup key fields)
  | Str _ | Num _ => inr Undefined
  end.

(** ** parseInt

    StrWhiteSpaceChar: white space and line terminators. *)
Definition isStrWhiteSpaceChar (c : jschar) : bool :=
  existsb (N.eqb c)
    [9; 10; 11; 12; 13; 32; 160; 5760; 8192; 8193; 8194; 8195; 8196; 8197;
     8198; 8199; 8200; 8201; 8202; 8232; 8233; 8239; 8287; 12288; 65279]%N.

Fixpoint trimStart (s : jsstring) : jsstring :=
  match s with
  | c :: s' => if isStrWhiteSpaceChar c then trimStart s' else s
  | [] => []
  end.

(** The value of the longest prefix of decimal digits, read after the
    digits [acc] already seen; [None] when there is no digit at all. *)
Fixpoint parseDigits (acc : option Z) (s : jsstring) : option Z :=
  match s with
  | c :: s' =>
      if (N.leb 48 c && N.leb c 57)%bool
      then parseDigits (Some (10 * match acc with Some a => a | None => 0 end
                              + Z.of_N (c - 48))) s'
      else acc
  | [] => acc
  end.

(** [parseInt(string, 10)] of a string; [None] is NaN. The result is
    only compared with zero, for which the exact integer and its
    rounding to a Number agree, as do [-0] and [0]. *)
Definition parseInt10 (inputString : jsstring) : option Z :=
  match trimStart inputString with
  | 45%N :: s => option_map Z.opp (parseDigits None s)
  | 43%N :: s => parseDigits None s
  | s => parseDigits None s
  end.

(** ** Configuration *)

Record Proxy := {
  proxy_host : option jsstring;
  proxy_port : option Z;
}.

(** The configuration [opts], with the types its documentation gives
    the options: strings, and whole numbers for [timeout] and
    [maximumRetry]. [configure] itself keeps whatever truthy value it is
    given (a fraction, [Infinity], a string); such configurations are
    outside this type, and nothing below speaks of them. *)
Record Config := {
  host : jsstring;
  endpoint : jsstring;
  serviceVersion : jsstring;
  androidVersion : jsstring;
  secret : jsstring;
  timeout : Z;
  maximumRetry : Z;
  proxy : Proxy;
}.

Definition DEFAULT : Config :=
  {| host := u "cidadao.sinesp.gov.br";
     endpoint := u "/sinesp-cidadao/mobile/consultar-placa/";
     serviceVersion := u "v4";
     androidVersion := u "8.1.0";
     secret := u "g8LzUadkEHs7mbRqbX5l";
     timeout := 0;
     maximumRetry := 0;
     proxy := {| proxy_host := None; proxy_port := None |} |}.

(** The argument of [configure]: every property may be missing. *)
Record Options := {
  opt_host : option jsstring;
  opt_serviceVersion : option jsstring;
  opt_androidVersion : option jsstring;
  opt_endpoint : option jsstring;
  opt_secret : option jsstring;
  opt_timeout : option Z;
  opt_maximumRetry : option Z;
  opt_proxy : option Proxy;
}.

(** The object [{}]. *)
Definition emptyOptions : Options :=
  {| opt_host := None; opt_serviceVersion := None; opt_androidVersion := None;
     opt_endpoint := None; opt_secret := None; opt_timeout := None;
     opt_maximumRetry := None; opt_proxy := None |}.

Definition emptyProxy : Proxy := {| proxy_host := None; proxy_port := None |}.

(** ToBoolean on strings and on numbers. *)
Definition truthyString (s : jsstring) : bool :=
  match s with [] => false | _ :: _ => true end.

Definition truthyNumber (n : Z) : bool := negb (n =? 0).

(** [x || d], where [x] may be undefined. *)
Definition orElse {A : Type} (truthy : A -> bool) (x : option A) (d : A) : A :=
  match x with
  | Some a => if truthy a then a else d
  | None => d
  end.

(** [x || d], where both may be undefined. *)
Definition orUndefined {A : Type} (truthy : A -> bool) (x d : option A) : option A :=
  match x with
  | Some a => if truthy a then x else d
  | None => d
  end.

(** The value [configure] assigns to [opts]; [options] is absent when
    the function is called without an argument. *)
Definition configure (options : option Options) : Config :=
  let o := match options with Some o => o | None => emptyOptions end in
  let proxyArg := match opt_proxy o with Some p => p | None => emptyProxy end in
  {| host := orElse truthyString (opt_host o) (host DEFAULT);
     endpoint := orElse truthyString (opt_endpoint o) (endpoint DEFAULT);
     serviceVersion := orElse truthyString (opt_serviceVersion o) (serviceVersion DEFAULT);
     androidVersion := orElse truthyString (opt_androidVersion o) (serviceVersion DEFAULT);
     secret := orElse truthyString (opt_secret o) (secret DEFAULT);
     timeout := orElse truthyNumber (opt_timeout o) (timeout DEFAULT);
     maximumRetry := orElse truthyNumber (opt_maximumRetry o) (maximumRetry DEFAULT);
     proxy :=
       {| proxy_host := orUndefined truthyString (proxy_host proxyArg) (proxy_host (proxy DEFAULT));
          proxy_port := orUndefined truthyNumber (proxy_port proxyArg) (proxy_port (proxy DEFAULT)) |} |}.

(** ** The world of a call

    The module's [opts], the randomness source, the clock and the
    network are the state the pipeline runs in. *)

Record Date := {
  getFullYear : Z;
  getMonth : Z;
  getDate : Z;
  getHours : Z;
  getMinutes : Z;
  getSeconds : Z;
}.

(** The second argument of [retry]. *)
Record RequestOptions := {
  data : jsstring;
  headers : list (jsstring * jsstring);
  httpsAgent : option jsstring;       (* the proxy URL of the agent, or null *)
  method : jsstring;
  request_timeout : Z;
}.

Inductive event :=
| Sleep (ms : number)
| Request (url : jsstring) (options : RequestOptions).

Record World := {
  opts : Config;
  random : nat -> number;               (* the successive values of Math.random *)
  drawn : nat;                          (* how many of them were taken *)
  now : Date;                           (* what [new Date()] reads *)
  responses : nat -> result jsstring;   (* how the i-th axios.request settles *)
  requests : nat;                       (* how many requests were issued *)
  trace : list event;                   (* sleeps and requests, oldest first *)
}.

(** An asynchronous computation: from a world to a settlement and the
    world after it. *)
Definition M (A : Type) : Type := World -> result A * World.

Definition ret {A : Type} (a : A) : M A := fun w => (inr a, w).

Definition throw {A : Type} (e : exception) : M A := fun w => (inl e, w).

Definition bind {A B : Type} (m : M A) (k : A -> M B) : M B :=
  fun w =>
    match m w with
    | (inr a, w') => k a w'
    | (inl e, w') => (inl e, w')
    end.

Declare Scope async_scope.
Delimit Scope async_scope with async.
Notation "x <- m ;; k" := (bind m (fun x => k))
  (at level 100, m at next level, right associativity) : async_scope.
Local Open Scope async_scope.

Definition settle {A : Type} (r : result A) : M A := fun w => (r, w).

Definition getOpts : M Config := fun w => (inr (opts w), w).

Definition Math_random : M number :=
  fun w =>
    (inr (random w (drawn w)),
     {| opts := opts w; random := random w; drawn := S (drawn w); now := now w;
        responses := responses w; requests := requests w; trace := trace w |}).

Definition newDate : M Date := fun w => (inr (now w), w).

(** [sleep(ms)]: the call [setTimeout(res, ms)] is recorded with the
    delay it was given, a Number. What the timer of the host makes of
    that delay (Node sets one that is below 1 or above 2^31 - 1 ms to
    1 ms) is not part of the record. *)
Definition sleep (ms : number) : M unit :=
  fun w =>
    (inr tt,
     {| opts := opts w; random := random w; drawn := drawn w; now := now w;
        responses := responses w; requests := requests w;
        trace := trace w ++ [Sleep ms] |}).

(** [axios.request({ url, ...options })], reduced to its [data]. *)
Definition axios_request (url : jsstring) (options : RequestOptions) : M jsstring :=
  fun w =>
    (responses w (requests w),
     {| opts := opts w; random := random w; drawn := drawn w; now := now w;
        responses := responses w; requests := S (requests w);
        trace := trace w ++ [Request url options] |}).

(** ** The libraries the source calls

    What the source takes from the JavaScript runtime and from its
    packages without defining it. *)
Class Platform := {
  (** Math.sin *)
  Math_sin : number -> number;
  (** Number::toString of a Number that is not an integer below 10^21 *)
  Number_toString_other : number -> jsstring;
  (** [createHmac(algorithm, key).update(data).digest('hex')] of crypto *)
  createHmac : jsstring -> jsstring -> jsstring -> jsstring;
  (** [new Builder({ rootName }).buildObject(obj)] of xml2js *)
  buildObject : jsstring -> value -> jsstring;
  (** [parseString(xml, { explicitArray: false })] of xml2js, promisified *)
  parseString : jsstring -> result value;
}.

(** ToBoolean on a Number: false on the zeros and on NaN. *)
Definition truthyFloat (x : number) : bool :=
  match x with
  | S754_zero _ | S754_nan => false
  | S754_infinity _ | S754_finite _ _ _ => true
  end.

(** [delay || 1000] *)
Definition orNumber (x d : number) : number := if truthyFloat x then x else d.

(** The body of the [try] block of [retry]. *)
Definition tryRequest (url : jsstring) (options : RequestOptions) (delay : number)
  : M jsstring :=
  _ <- sleep delay ;;
  axios_request url options.

Definition inspect {A : Type} (a : A) : {b : A | a = b} := exist _ a eq_refl.

Equations? retry (url : jsstring) (options : RequestOptions) (attempt : Z)
  (delay : number) (w : World) : result jsstring * World
  by wf (Z.to_nat (maximumRetry (opts w) - attempt)) lt :=
retry url options attempt delay w with inspect (tryRequest url options delay w) := {
  | exist _ (inr response, w') _ => (inr response, w')
  | exist _ (inl e, w') Htry with inspect (attempt >=? maximumRetry (opts w')) := {
    | exist _ true _ => (inl e, w')
    | exist _ false Hge =>
        retry url options (attempt + 1)
          (Number_mul (orNumber delay (Number_ofZ 1000)) (Number_ofZ 2)) w' } }.
Proof.
  rewrite Z.geb_leb in Hge. apply Z.leb_gt in Hge. lia.
Qed.

Section Pipeline.

Context {platform : Platform}.

(** Number::toString *)
Definition Number_toString (x : number) : jsstring :=
  match x with
  | S754_nan => u "NaN"
  | S754_infinity false => u "Infinity"
  | S754_infinity true => u "-Infinity"
  | _ =>
      match integerValue x with
      | Some z => if Z.abs z <? 10 ^ 21 then decimal z else Number_toString_other x
      | None => Number_toString_other x
      end
  end.

Definition ToString (v : value) : jsstring :=
  match v with
  | Undefined => u "undefined"
  | Str s => s
  | Num x => Number_toString x
  | Obj _ => u "[object Object]"
  end.

(** [Error(message)]: no message when the argument is undefined. *)
Definition ErrorOf (message : value) : exception :=
  Error match message with Undefined => [] | _ => ToString message end.

(** [parseInt(v, 10)] *)
Definition parseInt (v : value) : option Z := parseInt10 (ToString v).

Definition rbind {A B : Type} (r : result A) (k : A -> result B) : result B :=
  match r with
  | inl e => inl e
  | inr a => k a
  end.

Definition normalize (returnedXML : jsstring) : result value :=
  rbind (parseString returnedXML) (fun doc =>
  rbind (Get doc (u "soap:Envelope")) (fun soapEnvelope =>
  rbind (Get soapEnvelope (u "soap:Body")) (fun soapBody =>
  rbind (Get soapBody (u "ns2:getStatusResponse")) (fun getStatusResponse =>
  rbind (Get getStatusResponse (u "return")) (fun envelope =>
  rbind (Get envelope (u "codigoRetorno")) (fun codigoRetorno =>
  match parseInt codigoRetorno with
  | Some 0 => inr envelope
  | _ => rbind (Get envelope (u "mensagemRetorno")) (fun mensagemRetorno =>
         inl (ErrorOf mensagemRetorno))
  end)))))).

Definition generateRandomOctet : M number :=
  r <- Math_random ;;
  ret (Number_add (Math_floor (Number_mul r (Number_ofZ 255))) (Number_ofZ 1)).

Definition generateIPAddress : M jsstring :=
  octet1 <- generateRandomOctet ;;
  octet2 <- generateRandomOctet ;;
  octet3 <- generateRandomOctet ;;
  octet4 <- generateRandomOctet ;;
  ret (Number_toString octet1 ++ u "." ++ Number_toString octet2 ++ u "."
       ++ Number_toString octet3 ++ u "." ++ Number_toString octet4).

Definition generateCoordinate : M number :=
  r1 <- Math_random ;;
  let seed := Number_div (Number_ofZ 2000) (Math_sqrt r1) in
  r2 <- Math_random ;;
  ret (Number_mul seed
         (Math_sin (Number_mul (Number_mul (Number_ofZ 2) (Number_literal 3141592654 9)) r2))).

Definition generateLatitude : M number :=
  c <- generateCoordinate ;;
  ret (Number_sub c (Number_literal 385290245 7)).

Definition generateLongitude : M number :=
  c <- generateCoordinate ;;
  ret (Number_sub c (Number_literal 37506985 7)).

Definition generateToken (plate : jsstring) : M jsstring :=
  o <- getOpts ;;
  let secret := u "#" ++ androidVersion o ++ u "#" ++ secret o in
  ret (createHmac (u "sha1") (plate ++ secret) plate).

(** [s.slice(-n)] *)
Definition sliceLast (n : nat) (s : jsstring) : jsstring :=
  skipn (List.length s - n) s.

Definition formatDate (date : Date) : jsstring :=
  let year := getFullYear date in
  let month := sliceLast 2 (u "00" ++ decimal (getMonth date + 1)) in
  let day := sliceLast 2 (u "00" ++ decimal (getDate date)) in
  let hour := sliceLast 2 (u "00" ++ decimal (getHours date)) in
  let minute := sliceLast 2 (u "00" ++ decimal (getMinutes date)) in
  let second := sliceLast 2 (u "00" ++ decimal (getSeconds date)) in
  decimal year ++ u "-" ++ month ++ u "-" ++ day ++ u " "
    ++ hour ++ u ":" ++ minute ++ u ":" ++ second.

(** The object [body] that [generateBody] hands to the builder. *)
Definition requestDocument (o : Config) (plateToUse ip : jsstring)
  (latitude longitude : number) (token date : jsstring) : value :=
  Obj [ (u "$", Obj [ (u "xmlns:v", Str (u "http://schemas.xmlsoap.org/soap/envelope/")) ]);
        (u "v:Header",
         Obj [ (u "b", Str (u "LGE Nexus 5"));
               (u "c", Str (u "ANDROID"));
               (u "d", Str (androidVersion o));
               (u "e", Str (u "4.3.2"));
               (u "f", Str ip);
               (u "g", Str token);
               (u "h", Num longitude);
               (u "i", Num latitude);
               (u "j", Str []);
               (u "k", Str []);
               (u "l", Str date);
               (u "m", Str (u "8797e74f0d6eb7b1ff3dc114d4aa12d3")) ]);
        (u "v:Body",
         Obj [ (u "$", Obj [ (u "xmlns:n0",
                              Str (u "http://soap.ws.placa.service.sinesp.serpro.gov.br/")) ]);
               (u "n0:getStatus", Obj [ (u "a", Str plateToUse) ]) ]) ].

Definition generateBody (plate : jsstring) : M jsstring :=
  plateToUse <- settle (validate plate) ;;
  ip <- generateIPAddress ;;
  latitude <- generateLatitude ;;
  longitude <- generateLongitude ;;
  token <- generateToken plateToUse ;;
  today <- newDate ;;
  let date := formatDate today in
  o <- getOpts ;;
  ret (buildObject (u "v:Envelope")
         (requestDocument o plateToUse ip latitude longitude token date)).

Definition request (body : jsstring) : M value :=
  o <- getOpts ;;
  let url := u "https://" ++ host o ++ endpoint o ++ serviceVersion o in
  let headers :=
    [ (u "Content-Type", u "application/x-www-form-urlencoded; charset=UTF-8");
      (u "User-Agent", u "SinespCidadao / 3.0.2.1 CFNetwork / 758.2.8 Darwin / 15.0.0");
      (u "Host", host o) ] in
  let httpsAgent :=
    match proxy_host (proxy o) with
    | Some h =>
        if truthyString h
        then Some (u "http://" ++ h ++ u ":"
                   ++ match proxy_port (proxy o) with
                      | Some p => decimal p
                      | None => u "undefined"
                      end)
        else None
    | None => None
    end in
  response <- retry url
                {| data := body; headers := headers; httpsAgent := httpsAgent;
                   method := u "POST"; request_timeout := timeout o |}
                0 (Number_ofZ 0) ;;
  settle (normalize response).

(** [search(plate)]; [plate] is absent when the function is called
    without an argument. *)
Definition search (plate : option jsstring) : M value :=
  let plate := match plate with Some p => p | None => [] end in
  body <- generateBody plate ;;
  request body.

End Pipeline.

(** ** Vocabulary of the statements below *)

(** The world after [n] more values were taken from the randomness
    source. *)
Definition draws (n : nat) (w : World) : World :=
  {| opts := opts w; random := random w; drawn := (n + drawn w)%nat; now := now w;
     responses := responses w; requests := requests w; trace := trace w |}.

(** The delay [retry] passes to [sleep] before its attempt of index
    [i], counted from 0: none at first, then twice [delay || 1000], in
    binary64 as in the source. *)
Fixpoint backoff (i : nat) : number :=
  match i with
  | O => Number_ofZ 0
  | S j => Number_mul (orNumber (backoff j) (Number_ofZ 1000)) (Number_ofZ 2)
  end.

(** The mantissa of [1000 * 2^i] in binary64: [1000 * 2^43]. *)
Definition backoffMantissa : positive := 8796093022208000.

(** What the [n] attempts from index [first] on leave in the trace: a
    timer, then a request, for each. *)
Definition attemptsTrace (url : jsstring) (options : RequestOptions) (first n : nat)
  : list event :=
  flat_map (fun i => [Sleep (backoff i); Request url options]) (seq first n).

(** The world after the [n] attempts from index [first] on. *)
Definition attempted (url : jsstring) (options : RequestOptions) (first n : nat)
  (w : World) : World :=
  {| opts := opts w; random := random w; drawn := drawn w; now := now w;
     responses := responses w; requests := (requests w + n)%nat;
     trace := trace w ++ attemptsTrace url options first n |}.

(** The key of the token as the specification writes it:
    [plate + "#" + androidVersion + "#" + secret]. *)
Definition tokenKey (plate androidVersion secret : jsstring) : jsstring :=
  (((plate ++ u "#") ++ androidVersion) ++ u "#") ++ secret.

(** The nested path of a response document down to its return value. *)
Definition responsePath : list jsstring :=
  [u "soap:Envelope"; u "soap:Body"; u "ns2:getStatusResponse"; u "return"].

Fixpoint getPath (v : value) (path : list jsstring) : result value :=
  match path with
  | [] => inr v
  | key :: path' =>
      match Get v key with
      | inr v' => getPath v' path'
      | inl e => inl e
      end
  end.



(** A value the randomness source may produce: a binary64 number at
    least 0 and below 1. *)
Definition inUnitInterval (r : number) : bool :=
  valid_binary prec emax r
  && SFleb (S754_zero false) r
  && SFltb r (Number_ofZ 1).

Definition number_eqb (x y : number) : bool :=
  match x, y with
  | S754_zero a, S754_zero b => Bool.eqb a b
  | S754_infinity a, S754_infinity b => Bool.eqb a b
  | S754_nan, S754_nan => true
  | S754_finite a m e, S754_finite b m' e' => Bool.eqb a b && Pos.eqb m m' && Z.eqb e e'
  | _, _ => false
  end.

(** A mantissa and exponent that stand for a value in [0, 255), with
    the exponent of a binary64 number below 256. *)
Definition below255 (m e : Z) : Prop := e <= -45 /\ 0 <= m < 255 * 2 ^ (- e).

(** The integer part of [255 * r] in exact arithmetic. *)
Definition exactFloor255 (r : number) : Z :=
  match r with
  | S754_finite s m e =>
      if 0 <=? e then 255 * cond_Zopp s (Zpos m) * 2 ^ e
      else 255 * cond_Zopp s (Zpos m) / 2 ^ (- e)
  | _ => 0
  end.

(** [o] is an octet for the random value [r]: an integer from 1 to 255,
    one more than the integer part of [255 * r], or two more, which the
    rounding of the product in binary64 allows. *)
Definition octetOfDraw (r : number) (o : Z) : Prop :=
  1 <= o <= 255
  /\ exactFloor255 r + 1 <= o <= exactFloor255 r + 2.

(** ** Test doubles *)

(** A platform whose parser answers [document] whatever it is given. *)
Definition stubPlatform (document : value) : Platform :=
  {| Math_sin := fun x => x;
     Number_toString_other := fun _ => u "?";
     createHmac := fun _ key message => key ++ u "/" ++ message;
     buildObject := fun rootName _ => rootName;
     parseString := fun _ => inr document |}.

(** A response document of the expected shape. *)
Definition responseDocument (codigoRetorno mensagemRetorno : jsstring) : value :=
  Obj [ (u "soap:Envelope",
         Obj [ (u "soap:Body",
                Obj [ (u "ns2:getStatusResponse",
                       Obj [ (u "return",
                              Obj [ (u "codigoRetorno", Str codigoRetorno);
                                    (u "mensagemRetorno", Str mensagemRetorno);
                                    (u "modelo", Str (u "FUSCA")) ]) ]) ]) ]) ].

(** A world configured with [maximumRetry], whose transport fails its
    first [failures] requests and answers every later one, and whose
    randomness source always yields one half. *)
Definition stubWorld (maximumRetry : Z) (failures : nat) : World :=
  {| opts := configure (Some {| opt_host := None; opt_serviceVersion := None;
                                opt_androidVersion := None; opt_endpoint := None;
                                opt_secret := None; opt_timeout := None;
                                opt_maximumRetry := Some maximumRetry;
                                opt_proxy := None |});
     random := fun _ => Number_div (Number_ofZ 1) (Number_ofZ 2);
     drawn := 0;
     now := {| getFullYear := 2019; getMonth := 0; getDate := 7;
               getHours := 9; getMinutes := 30; getSeconds := 5 |};
     responses := fun i => if (i <? failures)%nat
                           then inl (Error (u "timeout of 0ms exceeded"))
                           else inr (u "<response/>");
     requests := 0;
     trace := [] |}.

(** The world [stubWorld 0 0] with a randomness source that yields
    1/8, 2/8, 3/8, 4/8 in turn. *)
Definition eighthsWorld : World :=
  {| opts := opts (stubWorld 0 0);
     random := fun i => Number_div (Number_ofZ (Z.of_nat (i mod 4) + 1)) (Number_ofZ 8);
     drawn := 0;
     now := now (stubWorld 0 0);
     responses := responses (stubWorld 0 0);
     requests := 0;
     trace := [] |}.

(** ** A codec for the round trip

    A builder and a parser of documents in a prefix notation: a tag,
    then the content; a string is written with a mark before each of
    its code units and a stop after the last. *)

Local Open Scope N_scope.

Definition encodeString (s : jsstring) : jsstring :=
  flat_map (fun c => [43; c]) s ++ [59].

Fixpoint encodePositive (p : positive) : jsstring :=
  match p with
  | xH => [59]
  | xO q => 48 :: encodePositive q
  | xI q => 49 :: encodePositive q
  end.

Definition encodeZ (z : Z) : jsstring :=
  match z with
  | Z0 => [48]
  | Zpos p => 43 :: encodePositive p
  | Zneg p => 45 :: encodePositive p
  end.

Definition encodeSign (s : bool) : jschar := if s then 45 else 43.

Definition encodeNumber (x : number) : jsstring :=
  match x with
  | S754_zero s => [122; encodeSign s]
  | S754_infinity s => [105; encodeSign s]
  | S754_nan => [110]
  | S754_finite s m e => 102 :: encodeSign s :: encodePositive m ++ encodeZ e
  end.

Fixpoint encodeValue (v : value) : jsstring :=
  match v with
  | Undefined => [117]
  | Str s => 115 :: encodeString s
  | Num x => 110 :: encodeNumber x
  | Obj fields =>
      111 :: (fix encodeFields (fs : list (jsstring * value)) : jsstring :=
                match fs with
                | [] => [101]
                | (k, v') :: fs' =>
                    102 :: encodeString k ++ encodeValue v' ++ encodeFields fs'
                end) fields
  end.

Fixpoint encodeFields (fs : list (jsstring * value)) : jsstring :=
  match fs with
  | [] => [101]
  | (k, v) :: fs' => 102 :: encodeString k ++ encodeValue v ++ encodeFields fs'
  end.








Local Open Scope Z_scope.

(** ** Vocabulary of the further properties *)

(** The lines of a string: the pieces between its line terminators. *)
Fixpoint lines (s : jsstring) : list jsstring :=
  match s with
  | [] => [[]]
  | c :: s' =>
      if RegExp.isLineTerminator c then [] :: lines s'
      else match lines s' with
           | l :: ls => (c :: l) :: ls
           | [] => [[c]]
           end
  end.

(** The input starts with a plate that ends its line. *)
Definition platePrefix (s : jsstring) : bool :=
  match s with
  | a :: b :: c :: d :: e :: f :: g :: rest =>
      isLetter a && isLetter b && isLetter c
      && isDigit d && isDigit e && isDigit f && isDigit g
      && match rest with
         | [] => true
         | h :: _ => RegExp.isLineTerminator h
         end
  | _ => false
  end.

(** Where [^] holds: at index 0 and after a line terminator. *)
Definition atLineStart (prev : option jschar) : bool :=
  match prev with
  | None => true
  | Some c => RegExp.isLineTerminator c
  end.

(** A configuration given back to [configure] as its argument. *)
Definition optionsOf (c : Config) : Options :=
  {| opt_host := Some (host c);
     opt_serviceVersion := Some (serviceVersion c);
     opt_androidVersion := Some (androidVersion c);
     opt_endpoint := Some (endpoint c);
     opt_secret := Some (secret c);
     opt_timeout := Some (timeout c);
     opt_maximumRetry := Some (maximumRetry c);
     opt_proxy := Some (proxy c) |}.

(** The URL and the options [request] passes to [retry]. *)
Definition requestUrl (o : Config) : jsstring :=
  u "https://" ++ host o ++ endpoint o ++ serviceVersion o.

Definition requestOptions (o : Config) (body : jsstring) : RequestOptions :=
  {| data := body;
     headers :=
       [ (u "Content-Type", u "application/x-www-form-urlencoded; charset=UTF-8");
         (u "User-Agent", u "SinespCidadao / 3.0.2.1 CFNetwork / 758.2.8 Darwin / 15.0.0");
         (u "Host", host o) ];
     httpsAgent :=
       match proxy_host (proxy o) with
       | Some h =>
           if truthyString h
           then Some (u "http://" ++ h ++ u ":"
                      ++ match proxy_port (proxy o) with
                         | Some p => decimal p
                         | None => u "undefined"
                         end)
           else None
       | None => None
       end;
     method := u "POST";
     request_timeout := timeout o |}.

(** The number two decimal digits stand for. *)
Definition twoDigits (a b : jschar) : option Z :=
  if (N.leb 48 a && N.leb a 57 && N.leb 48 b && N.leb b 57)%bool
  then Some (10 * Z.of_N (a - 48) + Z.of_N (b - 48))
  else None.

(** A reader of [YYYY-MM-DD HH:mm:ss], for the statement of the round
    trip of [formatDate]. *)
Definition parseDate (s : jsstring) : option Date :=
  match s with
  | [y1; y2; y3; y4; 45%N; m1; m2; 45%N; d1; d2; 32%N;
     h1; h2; 58%N; i1; i2; 58%N; s1; s2] =>
      match twoDigits y1 y2, twoDigits y3 y4, twoDigits m1 m2, twoDigits d1 d2,
            twoDigits h1 h2, twoDigits i1 i2, twoDigits s1 s2 with
      | Some yh, Some yl, Some mo, Some da, Some ho, Some mi, Some se =>
          Some {| getFullYear := 100 * yh + yl; getMonth := mo - 1; getDate := da;
                  getHours := ho; getMinutes := mi; getSeconds := se |}
      | _, _, _, _, _, _, _ => None
      end
  | _ => None
  end.

(** A date whose year has four digits and whose other fields are in
    the ranges of a calendar date. *)
Definition calendarDate (d : Date) : Prop :=
  1000 <= getFullYear d <= 9999
  /\ 0 <= getMonth d <= 11
  /\ 1 <= getDate d <= 31
  /\ 0 <= getHours d <= 23
  /\ 0 <= getMinutes d <= 59
  /\ 0 <= getSeconds d <= 59.

(** Neither an infinity nor NaN. *)
Definition isFinite (x : number) : bool :=
  match x with
  | S754_zero _ | S754_finite _ _ _ => true
  | S754_infinity _ | S754_nan => false
  end.

(** The character of a decimal digit. *)
Definition digitChar (n : Z) : jschar := Z.to_N (48 + n).

(** The digits [formatDate] writes for a two-digit field and for a
    four-digit year. *)
Definition pad2Check (n : Z) : bool :=
  jsstring_eqb (sliceLast 2 (u "00" ++ decimal n))
    [digitChar (n / 10); digitChar (n mod 10)].

Definition yearCheck (y : Z) : bool :=
  jsstring_eqb (decimal y)
    [digitChar (y / 1000); digitChar (y / 100 mod 10);
     digitChar (y / 10 mod 10); digitChar (y mod 10)].

(** * Properties *)

Unset Implicit Arguments.
Local Open Scope N_scope.

Lemma jsstring_eqb_eq (a b : jsstring) : jsstring_eqb a b = true <-> a = b.
Proof.
  revert b; induction a as [|x a IH]; destruct b as [|y b]; simpl;
    try (split; [discriminate | discriminate]); try tauto.
  rewrite andb_true_iff, N.eqb_eq, IH. split.
  - intros [-> ->]; reflexivity.
  - intros E; injection E; auto.
Qed.

(** ** Facts about the two regular expressions *)

Lemma In_members (a : jschar) (ranges : list (N * N)) :
  In a (RegExp.members ranges) <-> exists r, In r ranges /\ fst r <= a <= snd r.
Proof.
  unfold RegExp.members. rewrite in_flat_map. split.
  - intros [r [Hr Ha]]. exists r. split; [assumption|].
    apply in_map_iff in Ha. destruct Ha as [i [Hi Hs]].
    apply in_seq in Hs. lia.
  - intros [r [Hr Ha]]. exists r. split; [assumption|].
    apply in_map_iff. exists (N.to_nat (a - fst r)). split; [lia|].
    apply in_seq. lia.
Qed.

Ltac range_cases H :=
  simpl in H;
  repeat match type of H with
         | _ \/ _ => destruct H as [H | H]
         | False => destruct H
         end.

Ltac unbool :=
  repeat rewrite ?andb_true_iff, ?orb_true_iff, ?negb_true_iff,
    ?andb_false_iff, ?orb_false_iff, ?negb_false_iff,
    ?N.leb_le, ?N.leb_gt, ?N.eqb_eq, ?N.eqb_neq in *.

Lemma canonical_member_iff (re : RegExp.t) (ranges : list (N * N)) (ch : jschar) :
  existsb (fun a => N.eqb (RegExp.Canonicalize re a) (RegExp.Canonicalize re ch))
          (RegExp.members ranges) = true
  <-> exists a r, In r ranges /\ fst r <= a <= snd r
                  /\ RegExp.Canonicalize re a = RegExp.Canonicalize re ch.
Proof.
  rewrite existsb_exists. split.
  - intros [a [Ha E]]. apply In_members in Ha. destruct Ha as [r [Hr Hb]].
    exists a, r. apply N.eqb_eq in E. auto.
  - intros [a [r [Hr [Hb E]]]]. exists a. split.
    + apply In_members. exists r. auto.
    + apply N.eqb_eq. exact E.
Qed.

Lemma Canonicalize_ignoreCase (re : RegExp.t) (ch : jschar) :
  RegExp.ignoreCase re = true ->
  RegExp.Canonicalize re ch = if N.leb 97 ch && N.leb ch 122 then ch - 32 else ch.
Proof. intros H. unfold RegExp.Canonicalize. rewrite H. reflexivity. Qed.

Lemma letters_class (ch : jschar) :
  RegExp.CharacterSetMatcher PLATE_FORMAT false [(97, 122); (65, 90)] ch = isLetter ch.
Proof.
  unfold RegExp.CharacterSetMatcher. apply eq_true_iff_eq.
  rewrite canonical_member_iff. unfold isLetter.
  rewrite !(Canonicalize_ignoreCase PLATE_FORMAT) by reflexivity.
  split.
  - intros [a [r [Hr [Hb E]]]].
    rewrite (Canonicalize_ignoreCase PLATE_FORMAT) in E by reflexivity.
    range_cases Hr; subst r; simpl in Hb;
      destruct (N.leb 97 a && N.leb a 122) eqn:Ea;
      destruct (N.leb 97 ch && N.leb ch 122) eqn:Ec; unbool; lia.
  - intros H. destruct (N.leb 97 ch && N.leb ch 122) eqn:Ec.
    + exists ch, (97, 122).
      rewrite (Canonicalize_ignoreCase PLATE_FORMAT), Ec by reflexivity.
      simpl. unbool. repeat split; auto; lia.
    + exists ch, (65, 90).
      rewrite (Canonicalize_ignoreCase PLATE_FORMAT), Ec by reflexivity.
      simpl. unbool. repeat split; auto; lia.
Qed.

Lemma digits_class (ch : jschar) :
  RegExp.CharacterSetMatcher PLATE_FORMAT false [(48, 57)] ch = isDigit ch.
Proof.
  unfold RegExp.CharacterSetMatcher. apply eq_true_iff_eq.
  rewrite canonical_member_iff. unfold isDigit.
  rewrite !(Canonicalize_ignoreCase PLATE_FORMAT) by reflexivity.
  split.
  - intros [a [r [Hr [Hb E]]]].
    rewrite (Canonicalize_ignoreCase PLATE_FORMAT) in E by reflexivity.
    range_cases Hr; subst r; simpl in Hb;
      destruct (N.leb 97 a && N.leb a 122) eqn:Ea;
      destruct (N.leb 97 ch && N.leb ch 122) eqn:Ec; unbool; lia.
  - intros H. exists ch, (48, 57).
    rewrite (Canonicalize_ignoreCase PLATE_FORMAT) by reflexivity.
    simpl. unbool. repeat split; auto; lia.
Qed.

Lemma special_class (ch : jschar) :
  RegExp.CharacterSetMatcher SPECIAL true [(97, 122); (65, 90); (48, 57)] ch
  = isSpecial ch.
Proof.
  unfold RegExp.CharacterSetMatcher, isSpecial. f_equal. apply eq_true_iff_eq.
  rewrite canonical_member_iff. unfold isAlnum, isLetter, isDigit.
  rewrite !(Canonicalize_ignoreCase SPECIAL) by reflexivity.
  split.
  - intros [a [r [Hr [Hb E]]]].
    rewrite (Canonicalize_ignoreCase SPECIAL) in E by reflexivity.
    range_cases Hr; subst r; simpl in Hb;
      destruct (N.leb 97 a && N.leb a 122) eqn:Ea;
      destruct (N.leb 97 ch && N.leb ch 122) eqn:Ec; unbool; lia.
  - intros H. destruct (N.leb 97 ch && N.leb ch 122) eqn:Ec.
    + exists ch, (97, 122).
      rewrite (Canonicalize_ignoreCase SPECIAL), Ec by reflexivity.
      simpl. unbool. repeat split; auto; lia.
    + destruct (N.leb 65 ch && N.leb ch 90) eqn:Eu.
      * exists ch, (65, 90).
        rewrite (Canonicalize_ignoreCase SPECIAL), Ec by reflexivity.
        simpl. unbool. repeat split; auto; lia.
      * exists ch, (48, 57).
        rewrite (Canonicalize_ignoreCase SPECIAL), Ec by reflexivity.
        simpl. unbool. repeat split; auto; lia.
Qed.

Ltac run_matcher :=
  cbn [RegExp.execFrom RegExp.matchTerms RegExp.matchTerm RegExp.matchClass
       RegExp.pattern RegExp.multiline PLATE_FORMAT SPECIAL hd_error andb
       RegExp.before RegExp.after].

(** Replacing [SPECIAL] by the empty string removes the first special
    character, and only that one. *)
Lemma execFrom_SPECIAL (s beforeRev : jsstring) :
  match RegExp.execFrom SPECIAL beforeRev s with
  | Some m => RegExp.before m ++ [] ++ RegExp.after m
  | None => rev beforeRev ++ s
  end = rev beforeRev ++ dropFirst isSpecial s.
Proof.
  revert beforeRev. induction s as [|ch s IH]; intros beforeRev.
  - reflexivity.
  - run_matcher. rewrite special_class. cbn [dropFirst].
    destruct (isSpecial ch).
    + reflexivity.
    + specialize (IH (ch :: beforeRev)). cbn [rev] in IH.
      rewrite <- !app_assoc in IH. exact IH.
Qed.

Lemma replace_SPECIAL (s : jsstring) :
  RegExp.replace s SPECIAL [] = dropFirst isSpecial s.
Proof.
  unfold RegExp.replace, RegExp.exec.
  pose proof (execFrom_SPECIAL s []) as H. cbn [rev app] in H.
  destruct (RegExp.execFrom SPECIAL [] s); exact H.
Qed.

(** Without line terminators in the input, [^] holds at index 0 only and
    [$] at the end only: the pattern has to match the whole string. *)
Lemma matchTerms_PLATE_FORMAT_start (s : jsstring) :
  noLineTerminator s = true ->
  RegExp.matchTerms PLATE_FORMAT (RegExp.pattern PLATE_FORMAT) None s
  = if matches_plate s then Some [] else None.
Proof.
  intros H.
  destruct s as [|a [|b [|c [|d [|e [|f [|g [|h t]]]]]]]];
    cbn [matches_plate];
    repeat first
      [ progress run_matcher
      | rewrite letters_class
      | rewrite digits_class
      | match goal with
        | |- context [if isLetter ?x then _ else _] => destruct (isLetter x)
        | |- context [if isDigit ?x then _ else _] => destruct (isDigit x)
        end ];
    try reflexivity.
  unfold noLineTerminator in H. cbn [forallb] in H.
  do 7 (apply andb_true_iff in H; destruct H as [_ H]).
  apply andb_true_iff in H. destruct H as [H _].
  apply negb_true_iff in H. rewrite H. reflexivity.
Qed.

Lemma matchTerms_PLATE_FORMAT_inside (c : jschar) (s : jsstring) :
  RegExp.isLineTerminator c = false ->
  RegExp.matchTerms PLATE_FORMAT (RegExp.pattern PLATE_FORMAT) (Some c) s = None.
Proof. intros H. run_matcher. rewrite H. reflexivity. Qed.

Lemma execFrom_PLATE_FORMAT_inside (s : jsstring) (c : jschar) (beforeRev : jsstring) :
  RegExp.isLineTerminator c = false ->
  noLineTerminator s = true ->
  RegExp.execFrom PLATE_FORMAT (c :: beforeRev) s = None.
Proof.
  revert c beforeRev. induction s as [|ch s IH]; intros c beforeRev Hc Hs.
  - cbn [RegExp.execFrom hd_error].
    rewrite matchTerms_PLATE_FORMAT_inside by assumption. reflexivity.
  - cbn [RegExp.execFrom hd_error].
    rewrite matchTerms_PLATE_FORMAT_inside by assumption.
    unfold noLineTerminator in Hs. cbn [forallb] in Hs.
    apply andb_true_iff in Hs. destruct Hs as [Hch Hs].
    apply IH; [apply negb_true_iff; exact Hch | exact Hs].
Qed.

Lemma test_PLATE_FORMAT_one_line (s : jsstring) :
  noLineTerminator s = true ->
  RegExp.test PLATE_FORMAT s = matches_plate s.
Proof.
  intros H. unfold RegExp.test, RegExp.exec.
  destruct s as [|ch s].
  - reflexivity.
  - cbn [RegExp.execFrom hd_error].
    rewrite (matchTerms_PLATE_FORMAT_start (ch :: s)) by assumption.
    destruct (matches_plate (ch :: s)); [reflexivity|].
    unfold noLineTerminator in H. cbn [forallb] in H.
    apply andb_true_iff in H. destruct H as [Hch Hs].
    rewrite execFrom_PLATE_FORMAT_inside;
      [reflexivity | apply negb_true_iff; exact Hch | exact Hs].
Qed.

(** ** The plate validator *)

Lemma isSpecial_isAlnum (c : jschar) : isSpecial c = negb (isAlnum c).
Proof. reflexivity. Qed.

Lemma specials_none_strip (s : jsstring) : specials s = 0%nat -> strip s = s.
Proof.
  unfold specials, strip. induction s as [|c s IH]; simpl; [reflexivity|].
  rewrite isSpecial_isAlnum. destruct (isAlnum c); simpl.
  - intros H. rewrite IH by exact H. reflexivity.
  - discriminate.
Qed.

Lemma dropFirst_at_most_one (s : jsstring) :
  (specials s <= 1)%nat -> dropFirst isSpecial s = strip s.
Proof.
  unfold specials, strip. induction s as [|c s IH]; simpl; [reflexivity|].
  rewrite isSpecial_isAlnum. destruct (isAlnum c); simpl; intros H.
  - rewrite IH by exact H. reflexivity.
  - symmetry. apply specials_none_strip. unfold specials. lia.
Qed.

Lemma dropFirst_alnum (s : jsstring) :
  forallb isAlnum (dropFirst isSpecial s) = true ->
  (specials s <= 1)%nat /\ strip s = dropFirst isSpecial s.
Proof.
  unfold specials, strip. induction s as [|c s IH]; simpl; [auto|].
  rewrite isSpecial_isAlnum. destruct (isAlnum c) eqn:Ec; simpl.
  - rewrite Ec. simpl. intros H. destruct (IH H) as [Hn Hs].
    split; [exact Hn | rewrite Hs; reflexivity].
  - intros H.
    assert (Hf : filter isAlnum s = s).
    { clear IH. induction s as [|d s IHs]; simpl in *; [reflexivity|].
      apply andb_true_iff in H. destruct H as [Hd H].
      rewrite Hd, IHs by exact H. reflexivity. }
    assert (Hz : filter isSpecial s = []).
    { clear IH Hf. induction s as [|d s IHs]; simpl in *; [reflexivity|].
      apply andb_true_iff in H. destruct H as [Hd H].
      rewrite isSpecial_isAlnum, Hd. simpl. apply IHs. exact H. }
    rewrite Hz, Hf. simpl. auto.
Qed.

Lemma isAlnum_not_line_terminator (c : jschar) :
  isAlnum c = true -> RegExp.isLineTerminator c = false.
Proof.
  unfold isAlnum, isLetter, isDigit, RegExp.isLineTerminator. unbool. lia.
Qed.

Lemma alnum_noLineTerminator (s : jsstring) :
  forallb isAlnum s = true -> noLineTerminator s = true.
Proof.
  unfold noLineTerminator. induction s as [|c s IH]; simpl; [reflexivity|].
  intros H. apply andb_true_iff in H. destruct H as [Hc H].
  rewrite (isAlnum_not_line_terminator c Hc), IH by exact H. reflexivity.
Qed.

Lemma strip_alnum (s : jsstring) : forallb isAlnum (strip s) = true.
Proof.
  unfold strip. induction s as [|c s IH]; simpl; [reflexivity|].
  destruct (isAlnum c) eqn:Ec; simpl; [rewrite Ec|]; exact IH.
Qed.

Lemma matches_plate_alnum (p : jsstring) :
  matches_plate p = true -> forallb isAlnum p = true.
Proof.
  destruct p as [|a [|b [|c [|d [|e [|f [|g [|h t]]]]]]]]; try discriminate.
  unfold matches_plate. cbn [forallb]. unfold isAlnum.
  destruct (isLetter a), (isLetter b), (isLetter c),
    (isDigit d), (isDigit e), (isDigit f), (isDigit g);
    try discriminate.
  intros _. rewrite ?orb_true_r. reflexivity.
Qed.

Lemma matches_plate_length (p : jsstring) :
  matches_plate p = true -> List.length p = 7%nat.
Proof.
  destruct p as [|a [|b [|c [|d [|e [|f [|g [|h t]]]]]]]];
    try discriminate; reflexivity.
Qed.

Lemma dropFirst_noLineTerminator (p : jschar -> bool) (s : jsstring) :
  noLineTerminator s = true -> noLineTerminator (dropFirst p s) = true.
Proof.
  unfold noLineTerminator. induction s as [|c s IH]; simpl; [reflexivity|].
  intros H. apply andb_true_iff in H. destruct H as [Hc H].
  destruct (p c); simpl; [exact H|]. rewrite Hc, IH by exact H. reflexivity.
Qed.

(** On an input that has no line terminator once its first special
    character is gone, [validate] is decided by the whole remainder. *)
Lemma validate_one_line (s : jsstring) :
  noLineTerminator (dropFirst isSpecial s) = true ->
  validate s = if matches_plate (dropFirst isSpecial s)
               then inr (dropFirst isSpecial s)
               else inl ValidationError.
Proof.
  intros H. unfold validate. rewrite replace_SPECIAL.
  rewrite test_PLATE_FORMAT_one_line by exact H.
  destruct (matches_plate (dropFirst isSpecial s)); reflexivity.
Qed.

(** C1, as the code has it: a plate with at most one character that is
    not a letter or a digit inserted anywhere is accepted, and that
    character is removed; every other string without a line terminator
    is rejected with the validation error. *)
Theorem validate_at_most_one_special (s : jsstring) :
  (matches_plate (strip s) = true -> (specials s <= 1)%nat ->
   validate s = inr (strip s))
  /\ (noLineTerminator s = true ->
      matches_plate (strip s) && Nat.leb (specials s) 1 = false ->
      validate s = inl ValidationError).
Proof.
  split.
  - intros Hp Hn.
    pose proof (dropFirst_at_most_one s Hn) as Hd.
    rewrite validate_one_line; rewrite Hd.
    + rewrite Hp. reflexivity.
    + apply alnum_noLineTerminator, strip_alnum.
  - intros Hl Hf.
    rewrite validate_one_line by (apply dropFirst_noLineTerminator; exact Hl).
    destruct (matches_plate (dropFirst isSpecial s)) eqn:Hm; [|reflexivity].
    exfalso.
    destruct (dropFirst_alnum s (matches_plate_alnum _ Hm)) as [Hn Hs].
    rewrite Hs, Hm in Hf. simpl in Hf.
    apply Nat.leb_gt in Hf. lia.
Qed.

Lemma validate_at_most_one_special_witness :
  validate (u "ABC-1234") = inr (u "ABC1234")
  /\ validate (u "ABC_12_34") = inl ValidationError.
Proof.
  split.
  - apply (proj1 (validate_at_most_one_special (u "ABC-1234")));
      [reflexivity | vm_compute; lia].
  - apply (proj2 (validate_at_most_one_special (u "ABC_12_34"))); reflexivity.
Defined.

(** C1 as stated fails: a plate interspersed with two hyphens is
    rejected, because only the first special character is removed. *)
Lemma validate_two_specials_rejected :
  matches_plate (strip (u "ABC-12-34")) = true
  /\ validate (u "ABC-12-34") = inl ValidationError.
Proof. split; reflexivity. Qed.

(** On inputs without line terminators the value returned is a
    7-character plate. *)
Lemma validate_one_line_plate (s p : jsstring) :
  noLineTerminator s = true ->
  validate s = inr p ->
  matches_plate p = true /\ List.length p = 7%nat.
Proof.
  intros Hl Hv.
  rewrite validate_one_line in Hv by (apply dropFirst_noLineTerminator; exact Hl).
  destruct (matches_plate (dropFirst isSpecial s)) eqn:Hm; [|discriminate].
  injection Hv as <-. split; [exact Hm | apply matches_plate_length; exact Hm].
Qed.

(** C7 at a plate followed by CR LF: the carriage return is removed, the
    line feed stays, [$] matches before it under the [m] flag, and the
    value returned has 8 code units. *)
Theorem validate_trailing_newline :
  validate (u "ABC1234" ++ [13; 10]) = inr (u "ABC1234" ++ [10])
  /\ List.length (u "ABC1234" ++ [10]) = 8%nat
  /\ matches_plate (u "ABC1234" ++ [10]) = false.
Proof. repeat split. Qed.

(** ** Configuration *)

Local Open Scope Z_scope.

(** C2 at [configure()]: every field is its default except
    [androidVersion], which takes the default of [serviceVersion]. *)
Theorem configure_no_arguments :
  androidVersion (configure None) = u "v4"
  /\ androidVersion (configure None) <> androidVersion DEFAULT
  /\ host (configure None) = u "cidadao.sinesp.gov.br"
  /\ endpoint (configure None) = u "/sinesp-cidadao/mobile/consultar-placa/"
  /\ serviceVersion (configure None) = u "v4"
  /\ secret (configure None) = u "g8LzUadkEHs7mbRqbX5l"
  /\ timeout (configure None) = 0
  /\ maximumRetry (configure None) = 0
  /\ proxy (configure None) = emptyProxy.
Proof. repeat split. discriminate. Qed.

(** An [androidVersion] that is given is kept: the default is only
    mistaken when the option is missing or falsy. *)
Lemma configure_androidVersion_given (o : Options) (v : jsstring) :
  opt_androidVersion o = Some v -> truthyString v = true ->
  androidVersion (configure (Some o)) = v.
Proof. intros Hv Ht. unfold configure. cbn. rewrite Hv. cbn. rewrite Ht. reflexivity. Qed.

(** ** The token *)

(** C5: the token is the hexadecimal HMAC-SHA1 digest of the plate under
    the key [plate + "#" + androidVersion + "#" + secret], a function of
    the plate and of the two configured strings alone; the world is left
    as it was. *)
Theorem generateToken_hmac (platform : Platform) (plate : jsstring) (w : World) :
  generateToken plate w
  = (inr (createHmac (u "sha1")
            (tokenKey plate (androidVersion (opts w)) (secret (opts w))) plate),
     w).
Proof.
  unfold generateToken, bind, getOpts, ret, tokenKey.
  rewrite <- !app_assoc. reflexivity.
Qed.

(** ** The request envelope *)

Lemma generateRandomOctet_draw (w : World) :
  generateRandomOctet w
  = (inr (Number_add (Math_floor (Number_mul (random w (drawn w)) (Number_ofZ 255)))
            (Number_ofZ 1)),
     draws 1 w).
Proof. reflexivity. Qed.

Lemma draws_draws (n m : nat) (w : World) : draws n (draws m w) = draws (n + m) w.
Proof. unfold draws. cbn. rewrite Nat.add_assoc. reflexivity. Qed.

Lemma generateIPAddress_draws (platform : Platform) (w : World) :
  exists ip, generateIPAddress w = (inr ip, draws 4 w).
Proof.
  unfold generateIPAddress, bind. rewrite !generateRandomOctet_draw.
  rewrite !draws_draws. eexists. reflexivity.
Qed.

Lemma generateCoordinate_draws (platform : Platform) (w : World) :
  exists c, generateCoordinate w = (inr c, draws 2 w).
Proof.
  cbv [generateCoordinate bind Math_random ret draws].
  cbn [drawn random opts now responses requests trace Nat.add].
  eexists. reflexivity.
Qed.

Lemma generateLatitude_draws (platform : Platform) (w : World) :
  exists c, generateLatitude w = (inr c, draws 2 w).
Proof.
  destruct (generateCoordinate_draws platform w) as [c Hc].
  unfold generateLatitude, bind, ret. rewrite Hc. eexists. reflexivity.
Qed.

Lemma generateLongitude_draws (platform : Platform) (w : World) :
  exists c, generateLongitude w = (inr c, draws 2 w).
Proof.
  destruct (generateCoordinate_draws platform w) as [c Hc].
  unfold generateLongitude, bind, ret. rewrite Hc. eexists. reflexivity.
Qed.

(** Once the plate is validated, [generateBody] cannot fail: it draws
    eight random values and serializes the request document. *)
Lemma generateBody_validated (platform : Platform) (raw plate : jsstring) (w : World) :
  validate raw = inr plate ->
  exists ip latitude longitude,
    generateBody raw w
    = (inr (buildObject (u "v:Envelope")
              (requestDocument (opts w) plate ip latitude longitude
                 (createHmac (u "sha1")
                    (tokenKey plate (androidVersion (opts w)) (secret (opts w))) plate)
                 (formatDate (now w)))),
       draws 8 w).
Proof.
  intros Hv. unfold generateBody. unfold bind at 1. unfold settle. rewrite Hv.
  destruct (generateIPAddress_draws platform w) as [ip Hip].
  destruct (generateLatitude_draws platform (draws 4 w)) as [lat Hlat].
  destruct (generateLongitude_draws platform (draws 2 (draws 4 w))) as [long Hlong].
  exists ip, lat, long.
  unfold bind. rewrite Hip, Hlat, Hlong, generateToken_hmac.
  rewrite !draws_draws. reflexivity.
Qed.

(** ** The round trip of a request envelope *)












(** ** The response decoder *)

(** C6: on a document of the expected shape, with a status code that
    reads as the integer [n] and a status message, the decoder returns
    the return value itself, every field of it, when [n] is zero, and
    fails with an error carrying the message otherwise. *)
Theorem normalize_status (platform : Platform) (returnedXML : jsstring)
  (document envelope : value) (codigoRetorno mensagemRetorno : jsstring) (n : Z) :
  parseString returnedXML = inr document ->
  getPath document responsePath = inr envelope ->
  Get envelope (u "codigoRetorno") = inr (Str codigoRetorno) ->
  parseInt10 codigoRetorno = Some n ->
  Get envelope (u "mensagemRetorno") = inr (Str mensagemRetorno) ->
  normalize returnedXML = if n =? 0 then inr envelope else inl (Error mensagemRetorno).
Proof.
  intros Hparse Hpath Hcode Hn Hmessage.
  unfold normalize. rewrite Hparse. cbn [rbind].
  unfold responsePath in Hpath. cbn [getPath] in Hpath.
  destruct (Get document (u "soap:Envelope")) as [?|soapEnvelope];
    [discriminate|]. cbn [rbind].
  destruct (Get soapEnvelope (u "soap:Body")) as [?|soapBody];
    [discriminate|]. cbn [rbind].
  destruct (Get soapBody (u "ns2:getStatusResponse")) as [?|response];
    [discriminate|]. cbn [rbind].
  destruct (Get response (u "return")) as [?|envelope'];
    [discriminate|]. cbn [rbind].
  injection Hpath as ->.
  rewrite Hcode. cbn [rbind]. unfold parseInt, ToString. rewrite Hn.
  destruct n; [reflexivity| |]; rewrite Hmessage; reflexivity.
Qed.

Lemma normalize_status_witness :
  @normalize (stubPlatform (responseDocument (u "7") (u "Placa inv" ++ [225%N] ++ u "lida")))
    (u "<response/>")
  = inl (Error (u "Placa inv" ++ [225%N] ++ u "lida"))
  /\ @normalize (stubPlatform (responseDocument (u "0") [])) (u "<response/>")
     = inr (Obj [ (u "codigoRetorno", Str (u "0"));
                  (u "mensagemRetorno", Str []);
                  (u "modelo", Str (u "FUSCA")) ]).
Proof.
  split.
  - exact (normalize_status
             (stubPlatform (responseDocument (u "7") (u "Placa inv" ++ [225%N] ++ u "lida")))
             (u "<response/>") _ _ _ _ 7
             eq_refl eq_refl eq_refl eq_refl eq_refl).
  - exact (normalize_status (stubPlatform (responseDocument (u "0") []))
             (u "<response/>") _ _ _ _ 0
             eq_refl eq_refl eq_refl eq_refl eq_refl).
Defined.

(** ** The search pipeline *)

(** C10: without an argument the plate is the empty string, which the
    validator rejects; the world is untouched, so no request was issued
    and no timer set. *)
Theorem search_no_argument (platform : Platform) (w : World) :
  search None w = (inl ValidationError, w).
Proof. reflexivity. Qed.

(** ** The retrying transport *)

(** One turn of [retry]: the [try] block, then the [catch] block. *)
Lemma retry_step (url : jsstring) (options : RequestOptions) (attempt : Z)
  (delay : number) (w : World) :
  retry url options attempt delay w
  = match tryRequest url options delay w with
    | (inr response, w') => (inr response, w')
    | (inl e, w') =>
        if attempt >=? maximumRetry (opts w') then (inl e, w')
        else retry url options (attempt + 1)
               (Number_mul (orNumber delay (Number_ofZ 1000)) (Number_ofZ 2)) w'
    end.
Proof.
  revert url options attempt delay w.
  apply (retry_elim
           (fun url options attempt delay w res =>
              res = match tryRequest url options delay w with
                    | (inr response, w') => (inr response, w')
                    | (inl e, w') =>
                        if attempt >=? maximumRetry (opts w') then (inl e, w')
                        else retry url options (attempt + 1)
                               (Number_mul (orNumber delay (Number_ofZ 1000))
                                  (Number_ofZ 2)) w'
                    end)).
  - intros url options attempt delay w response w' Htry _.
    rewrite Htry. reflexivity.
  - intros url options attempt delay w e w' Hge Htry _ _.
    rewrite Htry, Hge. reflexivity.
  - intros url options attempt delay w e w' Hge Htry _ _ _.
    rewrite Htry, Hge. reflexivity.
Qed.

Lemma backoff_next (i : nat) :
  Number_mul (orNumber (backoff i) (Number_ofZ 1000)) (Number_ofZ 2) = backoff (S i).
Proof. reflexivity. Qed.

Lemma tryRequest_world (url : jsstring) (options : RequestOptions) (delay : number)
  (w : World) :
  tryRequest url options delay w
  = (responses w (requests w),
     {| opts := opts w; random := random w; drawn := drawn w; now := now w;
        responses := responses w; requests := S (requests w);
        trace := (trace w ++ [Sleep delay]) ++ [Request url options] |}).
Proof. reflexivity. Qed.

Lemma attempted_next (url : jsstring) (options : RequestOptions) (i n : nat) (w : World) :
  attempted url options (S i) n
    {| opts := opts w; random := random w; drawn := drawn w; now := now w;
       responses := responses w; requests := S (requests w);
       trace := (trace w ++ [Sleep (backoff i)]) ++ [Request url options] |}
  = attempted url options i (S n) w.
Proof.
  unfold attempted, attemptsTrace. cbn [opts random drawn now responses requests trace].
  rewrite Nat.add_succ_r. cbn [seq flat_map Nat.add].
  rewrite <- !app_assoc. reflexivity.
Qed.

(** With [k] failures ahead and then an answer, and at least [k]
    retries left, [retry] returns the answer after [k + 1] attempts. *)
Lemma retry_until_success (url : jsstring) (options : RequestOptions)
  (response : jsstring) (k : nat) :
  forall (i : nat) (w : World),
    Z.of_nat i + Z.of_nat k <= maximumRetry (opts w) ->
    (forall j, (j < k)%nat -> exists e, responses w (requests w + j) = inl e) ->
    responses w (requests w + k) = inr response ->
    retry url options (Z.of_nat i) (backoff i) w
    = (inr response, attempted url options i (S k) w).
Proof.
  induction k as [|k IH]; intros i w Hmax Hfail Hok.
  - rewrite retry_step, tryRequest_world.
    rewrite Nat.add_0_r in Hok. rewrite Hok.
    rewrite <- (attempted_next url options i 0 w).
    unfold attempted, attemptsTrace.
    cbn [opts random drawn now responses requests trace seq flat_map].
    rewrite Nat.add_0_r, app_nil_r. reflexivity.
  - rewrite retry_step, tryRequest_world.
    destruct (Hfail 0%nat) as [e He]; [lia|].
    rewrite Nat.add_0_r in He. rewrite He.
    cbn [opts].
    destruct (Z.geb_spec (Z.of_nat i) (maximumRetry (opts w))) as [Hge|Hlt]; [lia|].
    rewrite backoff_next. replace (Z.of_nat i + 1) with (Z.of_nat (S i)) by lia.
    rewrite IH.
    + rewrite attempted_next. reflexivity.
    + cbn [opts]. lia.
    + intros j Hj. cbn [responses requests].
      destruct (Hfail (S j)) as [e' He']; [lia|].
      exists e'. rewrite <- He'. f_equal. lia.
    + cbn [responses requests]. rewrite <- Hok. f_equal. lia.
Qed.

(** With failures only ahead, [retry] gives up when the attempt index
    reaches [maximumRetry], and rejects with the error of that attempt. *)
Lemma retry_exhausted (url : jsstring) (options : RequestOptions)
  (errors : nat -> exception) (k : nat) :
  forall (i : nat) (w : World),
    Z.of_nat i + Z.of_nat k = maximumRetry (opts w) ->
    (forall j, (j <= k)%nat -> responses w (requests w + j) = inl (errors j)) ->
    retry url options (Z.of_nat i) (backoff i) w
    = (inl (errors k), attempted url options i (S k) w).
Proof.
  revert errors. induction k as [|k IH]; intros errors i w Hmax Hfail.
  - rewrite retry_step, tryRequest_world.
    pose proof (Hfail 0%nat (Nat.le_refl 0)) as He.
    rewrite Nat.add_0_r in He. rewrite He. cbn [opts].
    destruct (Z.geb_spec (Z.of_nat i) (maximumRetry (opts w))) as [Hge|Hlt]; [|lia].
    rewrite <- (attempted_next url options i 0 w).
    unfold attempted, attemptsTrace.
    cbn [opts random drawn now responses requests trace seq flat_map].
    rewrite Nat.add_0_r, app_nil_r. reflexivity.
  - rewrite retry_step, tryRequest_world.
    pose proof (Hfail 0%nat (Nat.le_0_l _)) as He.
    rewrite Nat.add_0_r in He. rewrite He. cbn [opts].
    destruct (Z.geb_spec (Z.of_nat i) (maximumRetry (opts w))) as [Hge|Hlt]; [lia|].
    rewrite backoff_next. replace (Z.of_nat i + 1) with (Z.of_nat (S i)) by lia.
    rewrite (IH (fun j => errors (S j))).
    + rewrite attempted_next. reflexivity.
    + cbn [opts]. lia.
    + intros j Hj. cbn [responses requests].
      rewrite <- (Hfail (S j)) by lia. f_equal. lia.
Qed.

(** ** The search pipeline, with its transport stubbed *)

(** [request] is one run of [retry] from attempt 0 without delay,
    followed by the decoder. *)
Lemma request_retry (platform : Platform) (body : jsstring) (w : World) :
  exists url options,
    data options = body
    /\ request body w
       = match retry url options (Z.of_nat 0) (backoff 0) w with
         | (inr response, w') => (normalize response, w')
         | (inl e, w') => (inl e, w')
         end.
Proof.
  unfold request, bind, getOpts, settle. do 2 eexists. split; [|reflexivity].
  reflexivity.
Qed.

(** ** The delays of [retry] in binary64 *)

Lemma Number_mul_2 (e : Z) :
  -1000 <= e <= 970 ->
  Number_mul (S754_finite false backoffMantissa e) (Number_ofZ 2)
  = S754_finite false backoffMantissa (e + 1).
Proof.
  intros He.
  change (Number_ofZ 2) with (S754_finite false 4503599627370496 (-51)).
  unfold Number_mul. cbn [SFmul xorb]. unfold binary_round_aux, shr_fexp.
  change (Zdigits2 (Zpos (backoffMantissa * 4503599627370496))) with 105.
  replace (fexp prec emax (105 + (e + -51)) - (e + -51)) with 52
    by (unfold fexp, emin, prec, emax; lia).
  cbn [shr shr_record_of_loc].
  change (iter_pos shr_1 52
            {| shr_m := Zpos (backoffMantissa * 4503599627370496);
               shr_r := false; shr_s := false |})
    with {| shr_m := Zpos backoffMantissa; shr_r := false; shr_s := false |}.
  cbn [shr_m loc_of_shr_record round_nearest_even Zdigits2].
  change (Zpos (digits2_pos backoffMantissa)) with 53.
  replace (fexp prec emax (53 + (e + -51 + 52)) - (e + -51 + 52)) with 0
    by (unfold fexp, emin, prec, emax; lia).
  cbn [shr shr_record_of_loc shr_m].
  replace (e + -51 + 52) with (e + 1) by lia.
  destruct (Z.leb_spec (e + 1) (emax - prec)) as [_|H]; [reflexivity|].
  unfold emax, prec in H. lia.
Qed.

Lemma backoff_finite (i : nat) :
  (1 <= i <= 1014)%nat ->
  backoff i = S754_finite false backoffMantissa (Z.of_nat i - 43).
Proof.
  induction i as [|i IH]; intros Hi; [lia|].
  destruct i as [|i]; [reflexivity|].
  cbn [backoff] in *. rewrite IH by lia. cbn [orNumber truthyFloat].
  rewrite Number_mul_2 by lia. f_equal. lia.
Qed.

(** The delays [retry] computes: none, then [1000 * 2^i] ms, exactly,
    up to the attempt of index 1014; the next product overflows, and
    from index 1015 on the delay is [Infinity]. *)
Lemma backoff_values :
  backoff 0 = S754_zero false
  /\ (forall i, (1 <= i <= 1014)%nat ->
        integerValue (backoff i) = Some (1000 * 2 ^ Z.of_nat i))
  /\ (forall i, (1015 <= i)%nat -> backoff i = S754_infinity false).
Proof.
  split; [reflexivity|]. split.
  - intros i Hi. rewrite (backoff_finite i Hi). cbn [integerValue cond_Zopp].
    change (Zpos backoffMantissa) with (1000 * 2 ^ 43).
    destruct (Z.leb_spec 0 (Z.of_nat i - 43)) as [Hge|Hlt].
    + rewrite <- Z.mul_assoc, <- Z.pow_add_r by lia. do 3 f_equal. lia.
    + assert (Hs : 1000 * 2 ^ 43
                   = 1000 * 2 ^ Z.of_nat i * 2 ^ (- (Z.of_nat i - 43))).
      { rewrite <- Z.mul_assoc, <- Z.pow_add_r by lia. do 2 f_equal. lia. }
      assert (Hp : 2 ^ (- (Z.of_nat i - 43)) <> 0) by (apply Z.pow_nonzero; lia).
      rewrite Hs, Z.mod_mul, Z.div_mul by exact Hp. reflexivity.
  - intros i Hi. induction i as [|i IH]; [lia|].
    destruct (Nat.eq_dec i 1014) as [He|Hne].
    + cbn [backoff]. rewrite (backoff_finite i) by lia. rewrite He. reflexivity.
    + cbn [backoff]. rewrite IH by lia. reflexivity.
Qed.

(** For a valid plate, with [k] failures of the transport ahead, then
    an answer, and at least [k] retries allowed, the search is the
    decoder applied to that answer, after [k + 1] attempts. *)
Lemma search_answered (platform : Platform) (raw plate : jsstring)
  (w : World) (k : nat) (response : jsstring) :
  validate raw = inr plate ->
  Z.of_nat k <= maximumRetry (opts w) ->
  (forall j, (j < k)%nat -> exists e, responses w (requests w + j) = inl e) ->
  responses w (requests w + k) = inr response ->
  exists url options,
    search (Some raw) w
    = (normalize response, attempted url options 0 (S k) (draws 8 w)).
Proof.
  intros Hv Hmax Hfail Hok.
  destruct (generateBody_validated platform raw plate w Hv) as [ip [lat [long Hbody]]].
  unfold search, bind. rewrite Hbody.
  match goal with |- context [request ?b ?w1] =>
    destruct (request_retry platform b w1) as [url [options [_ Hrequest]]];
    rewrite Hrequest
  end.
  rewrite (retry_until_success url options response k 0%nat (draws 8 w)) by assumption.
  exists url, options. reflexivity.
Qed.

(** C3, as the code has it: when the transport fails [k] times and then
    gives an answer that the decoder accepts, with [k <= maximumRetry],
    the search returns the decoded answer; the transport was invoked
    [k + 1] times, the attempt of index [i] after [sleep (backoff i)].
    The delays are binary64 numbers: 0 for the first attempt,
    [1000 * 2^i] for the attempts of index 1 to 1014 (2000, 4000, 8000,
    ...), and [Infinity] from index 1015 on. *)
Theorem search_retries_until_success (platform : Platform) (raw plate : jsstring)
  (w : World) (k : nat) (response : jsstring) (record : value) :
  validate raw = inr plate ->
  Z.of_nat k <= maximumRetry (opts w) ->
  (forall j, (j < k)%nat -> exists e, responses w (requests w + j) = inl e) ->
  responses w (requests w + k) = inr response ->
  normalize response = inr record ->
  exists url options,
    fst (search (Some raw) w) = inr record
    /\ requests (snd (search (Some raw) w)) = (requests w + (k + 1))%nat
    /\ trace (snd (search (Some raw) w))
       = trace w
         ++ flat_map (fun i => [Sleep (backoff i); Request url options]) (seq 0 (k + 1))
    /\ backoff 0 = S754_zero false
    /\ (forall i, (1 <= i <= 1014)%nat ->
          integerValue (backoff i) = Some (1000 * 2 ^ Z.of_nat i))
    /\ (forall i, (1015 <= i)%nat -> backoff i = S754_infinity false).
Proof.
  intros Hv Hmax Hfail Hok Hrecord.
  destruct (search_answered platform raw plate w k response Hv Hmax Hfail Hok)
    as [url [options Hsearch]].
  exists url, options. rewrite Hsearch, Hrecord, Nat.add_1_r.
  cbn [fst snd attempted requests trace draws].
  split; [reflexivity|]. split; [reflexivity|]. split; [reflexivity|].
  exact backoff_values.
Qed.

Lemma search_retries_until_success_witness :
  exists url options,
    fst (@search (stubPlatform (responseDocument (u "0") []))
           (Some (u "ABC-1234")) (stubWorld 3 2))
    = inr (Obj [ (u "codigoRetorno", Str (u "0"));
                 (u "mensagemRetorno", Str []);
                 (u "modelo", Str (u "FUSCA")) ])
    /\ requests (snd (@search (stubPlatform (responseDocument (u "0") []))
                        (Some (u "ABC-1234")) (stubWorld 3 2)))
       = 3%nat
    /\ trace (snd (@search (stubPlatform (responseDocument (u "0") []))
                     (Some (u "ABC-1234")) (stubWorld 3 2)))
       = [Sleep (Number_ofZ 0); Request url options;
          Sleep (Number_ofZ 2000); Request url options;
          Sleep (Number_ofZ 4000); Request url options].
Proof.
  destruct (search_retries_until_success
              (stubPlatform (responseDocument (u "0") []))
              (u "ABC-1234") (u "ABC1234") (stubWorld 3 2) 2
              (u "<response/>")
              (Obj [ (u "codigoRetorno", Str (u "0"));
                     (u "mensagemRetorno", Str []);
                     (u "modelo", Str (u "FUSCA")) ])
              eq_refl)
    as [url [options [Hr [Hn [Ht _]]]]].
  - cbn. lia.
  - intros j Hj. exists (Error (u "timeout of 0ms exceeded")).
    destruct j as [|[|j]]; [reflexivity | reflexivity | lia].
  - reflexivity.
  - reflexivity.
  - exists url, options. repeat split; assumption.
Defined.

(** The entries of the trace of [n] attempts: the timer of the attempt
    of index [first + j] at position [2 * j], its request next. *)
Lemma attemptsTrace_nth (url : jsstring) (options : RequestOptions) (n : nat) :
  forall first j, (j < n)%nat ->
    nth_error (attemptsTrace url options first n) (2 * j)
    = Some (Sleep (backoff (first + j)))
    /\ nth_error (attemptsTrace url options first n) (2 * j + 1)
       = Some (Request url options).
Proof.
  induction n as [|n IH]; intros first j Hj; [lia|].
  destruct j as [|j].
  - rewrite Nat.add_0_r. split; reflexivity.
  - replace (2 * S j)%nat with (S (S (2 * j))) by lia.
    unfold attemptsTrace in *. cbn [seq flat_map app Nat.add nth_error].
    rewrite Nat.add_succ_r. apply (IH (S first) j). lia.
Qed.

(** C3 as stated fails twice. An answer of the transport is not a
    success of the search: with three retries allowed, a transport that
    fails once and then delivers an answer whose status code is 7 makes
    the search fail with the error of the service, after two requests.
    And the delays do not double for ever: after 1015 failures the
    delay handed to [sleep] is [Infinity], no number of milliseconds. *)
Lemma search_answer_rejected_and_delay_infinite :
  (Z.of_nat 1 <= maximumRetry (opts (stubWorld 3 1))
   /\ responses (stubWorld 3 1) 0 = inl (Error (u "timeout of 0ms exceeded"))
   /\ responses (stubWorld 3 1) 1 = inr (u "<response/>")
   /\ fst (@search (stubPlatform (responseDocument (u "7") (u "Erro")))
             (Some (u "ABC-1234")) (stubWorld 3 1))
      = inl (Error (u "Erro"))
   /\ requests (snd (@search (stubPlatform (responseDocument (u "7") (u "Erro")))
                       (Some (u "ABC-1234")) (stubWorld 3 1)))
      = 2%nat)
  /\ (Z.of_nat 1015 <= maximumRetry (opts (stubWorld 1015 1015))
      /\ (forall j, (j < 1015)%nat ->
            responses (stubWorld 1015 1015) j
            = inl (Error (u "timeout of 0ms exceeded")))
      /\ responses (stubWorld 1015 1015) 1015 = inr (u "<response/>")
      /\ exists url options,
           fst (@search (stubPlatform (responseDocument (u "0") []))
                  (Some (u "ABC-1234")) (stubWorld 1015 1015))
           = inr (Obj [ (u "codigoRetorno", Str (u "0"));
                        (u "mensagemRetorno", Str []);
                        (u "modelo", Str (u "FUSCA")) ])
           /\ nth_error
                (trace (snd (@search (stubPlatform (responseDocument (u "0") []))
                               (Some (u "ABC-1234")) (stubWorld 1015 1015))))
                (2 * 1015)
              = Some (Sleep (S754_infinity false))
           /\ nth_error
                (trace (snd (@search (stubPlatform (responseDocument (u "0") []))
                               (Some (u "ABC-1234")) (stubWorld 1015 1015))))
                (2 * 1015 + 1)
              = Some (Request url options)).
Proof.
  split.
  - split; [cbn; lia|]. split; [reflexivity|]. split; [reflexivity|].
    destruct (search_answered (stubPlatform (responseDocument (u "7") (u "Erro")))
                (u "ABC-1234") (u "ABC1234") (stubWorld 3 1) 1 (u "<response/>")
                eq_refl) as [url [options Hsearch]].
    + cbn. lia.
    + intros j Hj. exists (Error (u "timeout of 0ms exceeded")).
      destruct j as [|j]; [reflexivity | lia].
    + reflexivity.
    + rewrite Hsearch. split; reflexivity.
  - assert (Hmax : Z.of_nat 1015 <= maximumRetry (opts (stubWorld 1015 1015))).
    { apply Z.leb_le. vm_compute. reflexivity. }
    assert (Hfail : forall j, (j < 1015)%nat ->
              responses (stubWorld 1015 1015) j
              = inl (Error (u "timeout of 0ms exceeded"))).
    { intros j Hj. cbn [stubWorld responses].
      destruct (Nat.ltb_spec j 1015) as [_|Hge]; [reflexivity | lia]. }
    assert (Hok : responses (stubWorld 1015 1015) 1015 = inr (u "<response/>")).
    { vm_compute. reflexivity. }
    split; [exact Hmax|]. split; [exact Hfail|]. split; [exact Hok|].
    destruct (search_answered (stubPlatform (responseDocument (u "0") []))
                (u "ABC-1234") (u "ABC1234") (stubWorld 1015 1015) 1015
                (u "<response/>") eq_refl Hmax) as [url [options Hsearch]].
    + intros j Hj. exists (Error (u "timeout of 0ms exceeded")).
      exact (Hfail j Hj).
    + exact Hok.
    + exists url, options. rewrite Hsearch.
      cbn [fst snd attempted trace draws stubWorld app].
      destruct (attemptsTrace_nth url options 1016 0 1015) as [Hs Hr]; [lia|].
      split; [reflexivity|]. split; [|exact Hr].
      rewrite Hs. cbn [Nat.add].
      rewrite (proj2 (proj2 backoff_values) 1015%nat) by lia. reflexivity.
Qed.

(** C4: when [maximumRetry] is [N] and the transport fails at every
    attempt, the [j]-th with [errors j], the search fails after [N + 1]
    attempts with the error of the last one, as it was raised. *)
Theorem search_exhausts_retries (platform : Platform) (raw plate : jsstring)
  (w : World) (N : nat) (errors : nat -> exception) :
  validate raw = inr plate ->
  maximumRetry (opts w) = Z.of_nat N ->
  (forall j, (j <= N)%nat -> responses w (requests w + j) = inl (errors j)) ->
  exists url options,
    fst (search (Some raw) w) = inl (errors N)
    /\ requests (snd (search (Some raw) w)) = (requests w + (N + 1))%nat
    /\ trace (snd (search (Some raw) w))
       = trace w
         ++ flat_map (fun i => [Sleep (backoff i); Request url options]) (seq 0 (N + 1)).
Proof.
  intros Hv Hmax Hfail.
  destruct (generateBody_validated platform raw plate w Hv) as [ip [lat [long Hbody]]].
  unfold search, bind. rewrite Hbody.
  match goal with |- context [request ?b ?w1] =>
    destruct (request_retry platform b w1) as [url [options [_ Hrequest]]];
    rewrite Hrequest
  end.
  rewrite (retry_exhausted url options errors N 0%nat (draws 8 w)).
  - exists url, options. rewrite Nat.add_1_r.
    cbn [fst snd attempted requests trace draws]. repeat split.
  - cbn [draws opts]. lia.
  - exact Hfail.
Qed.

Lemma search_exhausts_retries_witness :
  fst (@search (stubPlatform Undefined) (Some (u "ABC-1234")) (stubWorld 2 5))
  = inl (Error (u "timeout of 0ms exceeded"))
  /\ requests (snd (@search (stubPlatform Undefined) (Some (u "ABC-1234"))
                      (stubWorld 2 5)))
     = 3%nat.
Proof.
  destruct (search_exhausts_retries (stubPlatform Undefined)
              (u "ABC-1234") (u "ABC1234") (stubWorld 2 5) 2
              (fun _ => Error (u "timeout of 0ms exceeded")) eq_refl eq_refl)
    as [url [options [Hr [Hn _]]]].
  - intros j Hj. cbn [stubWorld responses requests Nat.add].
    destruct j as [|[|[|j]]]; [reflexivity | reflexivity | reflexivity | lia].
  - split; assumption.
Defined.

(** ** Rounding in binary64 *)

Lemma digits2_pos_size (p : positive) : digits2_pos p = Pos.size p.
Proof. induction p as [p IH|p IH|]; simpl; rewrite ?IH; reflexivity. Qed.

Lemma digits2_lower (p : positive) : 2 ^ (Zpos (digits2_pos p) - 1) <= Zpos p.
Proof.
  rewrite digits2_pos_size.
  pose proof (Pos.size_le p) as H.
  apply Pos2Z.pos_le_pos in H. rewrite Pos2Z.inj_pow in H.
  change (Zpos p~0) with (2 * Zpos p) in H.
  replace (Zpos (Pos.size p)) with (Z.succ (Zpos (Pos.size p) - 1)) in H by lia.
  rewrite Z.pow_succ_r in H by lia. lia.
Qed.

Lemma digits2_upper (p : positive) (k : Z) :
  0 <= k -> Zpos p < 2 ^ k -> Zpos (digits2_pos p) <= k.
Proof.
  intros Hk Hp. pose proof (digits2_lower p) as Hl.
  destruct (Z.le_gt_cases (Zpos (digits2_pos p)) k) as [H|H]; [exact H|].
  exfalso.
  assert (2 ^ k <= 2 ^ (Zpos (digits2_pos p) - 1))
    by (apply Z.pow_le_mono_r; lia).
  lia.
Qed.

Lemma shr_1_spec (mrs : shr_record) :
  0 <= shr_m mrs ->
  shr_m (shr_1 mrs) = shr_m mrs / 2 /\ shr_r (shr_1 mrs) = Z.odd (shr_m mrs).
Proof.
  destruct mrs as [m r s]. cbn [shr_m]. intros Hm.
  rewrite <- Z.div2_div.
  destruct m as [|[p|p|]|p]; try lia; split; reflexivity.
Qed.

Lemma div_pow2_nonneg (m k : Z) : 0 <= m -> 0 <= m / 2 ^ k.
Proof.
  intros Hm. destruct (Z.le_gt_cases 0 k) as [Hk|Hk].
  - apply Z.div_pos; [exact Hm | apply Z.pow_pos_nonneg; lia].
  - rewrite Z.pow_neg_r by exact Hk. rewrite Z.div_0_r. lia.
Qed.

Lemma div_pow2_div (m a b : Z) :
  0 <= a -> 0 <= b -> m / 2 ^ a / 2 ^ b = m / 2 ^ (a + b).
Proof.
  intros Ha Hb. rewrite Z.div_div.
  - rewrite <- Z.pow_add_r by lia. reflexivity.
  - apply Z.pow_nonzero; lia.
  - apply Z.pow_pos_nonneg; lia.
Qed.

Lemma shr_iter (p : positive) :
  forall mrs : shr_record,
    0 <= shr_m mrs ->
    shr_m (iter_pos shr_1 p mrs) = shr_m mrs / 2 ^ Zpos p
    /\ shr_r (iter_pos shr_1 p mrs) = Z.odd (shr_m mrs / 2 ^ (Zpos p - 1)).
Proof.
  induction p as [p IH|p IH|]; intros mrs Hm; cbn [iter_pos].
  - destruct (shr_1_spec mrs Hm) as [H1 _].
    change 2 with (2 ^ 1) in H1 at 1.
    assert (Hm1 : 0 <= shr_m (shr_1 mrs))
      by (rewrite H1; apply div_pow2_nonneg; exact Hm).
    destruct (IH _ Hm1) as [H2 _].
    assert (Hm2 : 0 <= shr_m (iter_pos shr_1 p (shr_1 mrs)))
      by (rewrite H2; apply div_pow2_nonneg; exact Hm1).
    destruct (IH _ Hm2) as [H3 H4].
    rewrite H3, H4, H2, H1, !div_pow2_div by lia.
    rewrite Pos2Z.inj_xI.
    split; [f_equal; f_equal; lia | f_equal; f_equal; f_equal; lia].
  - destruct (IH _ Hm) as [H2 _].
    assert (Hm2 : 0 <= shr_m (iter_pos shr_1 p mrs))
      by (rewrite H2; apply div_pow2_nonneg; exact Hm).
    destruct (IH _ Hm2) as [H3 H4].
    rewrite H3, H4, H2, !div_pow2_div by lia.
    rewrite Pos2Z.inj_xO.
    split; [f_equal; f_equal; lia | f_equal; f_equal; f_equal; lia].
  - destruct (shr_1_spec mrs Hm) as [H1 H2]. rewrite H1, H2.
    change (2 ^ (1 - 1)) with 1. rewrite Z.div_1_r. split; reflexivity.
Qed.

Lemma round_nearest_even_bounds (mrs : shr_record) :
  shr_m mrs <= round_nearest_even (shr_m mrs) (loc_of_shr_record mrs)
  <= shr_m mrs + Z.b2z (shr_r mrs).
Proof.
  destruct mrs as [m [|] [|]]; cbn [shr_m shr_r loc_of_shr_record round_nearest_even Z.b2z];
    try destruct (Z.even m); lia.
Qed.

(** Shifting right by [p] and rounding to nearest adds at most half of
    the last place kept. *)
Lemma shr_round_upper (p : positive) (m : Z) :
  0 <= m ->
  let mrs := iter_pos shr_1 p (shr_record_of_loc m loc_Exact) in
  0 <= round_nearest_even (shr_m mrs) (loc_of_shr_record mrs)
  /\ round_nearest_even (shr_m mrs) (loc_of_shr_record mrs) * 2 ^ Zpos p
     <= m + 2 ^ (Zpos p - 1).
Proof.
  intros Hm mrs.
  destruct (shr_iter p (shr_record_of_loc m loc_Exact) Hm) as [H1 H2].
  fold mrs in H1, H2. cbn [shr_record_of_loc shr_m] in H1, H2.
  pose proof (round_nearest_even_bounds mrs) as [Hlo Hhi].
  set (R := round_nearest_even (shr_m mrs) (loc_of_shr_record mrs)) in *.
  rewrite H1, H2 in Hhi. rewrite H1 in Hlo.
  pose proof (div_pow2_nonneg m (Zpos p) Hm) as Hq.
  split; [lia|].
  assert (Hpow : 2 ^ Zpos p = 2 * 2 ^ (Zpos p - 1)).
  { rewrite <- Z.pow_succ_r by lia. f_equal. lia. }
  assert (Hh : 0 < 2 ^ (Zpos p - 1)) by (apply Z.pow_pos_nonneg; lia).
  pose proof (Z.div_mod m (2 ^ (Zpos p - 1)) ltac:(lia)) as Hdm.
  pose proof (Z.mod_pos_bound m (2 ^ (Zpos p - 1)) Hh) as Hmod.
  assert (Hhalf : m / 2 ^ Zpos p = m / 2 ^ (Zpos p - 1) / 2).
  { change 2 with (2 ^ 1) at 3. rewrite div_pow2_div by lia. f_equal. f_equal. lia. }
  pose proof (Z.div2_odd (m / 2 ^ (Zpos p - 1))) as Hodd.
  rewrite Z.div2_div, <- Hhalf in Hodd.
  set (q := m / 2 ^ (Zpos p - 1)) in *.
  set (h := 2 ^ (Zpos p - 1)) in *.
  set (t := m / 2 ^ Zpos p) in *.
  rewrite Hpow.
  destruct (Z.odd q); cbn [Z.b2z] in *; nia.
Qed.

Lemma round_nearest_even_exact (m : Z) : round_nearest_even m loc_Exact = m.
Proof. reflexivity. Qed.

Lemma fexp_below (x : Z) : x <= 8 -> fexp prec emax x <= -45.
Proof. unfold fexp, emin, prec, emax. lia. Qed.

Lemma Zdigits2_below (m e : Z) : below255 m e -> Zdigits2 m + e <= 8.
Proof.
  intros [He [Hm0 Hm]]. destruct m as [|p|p]; cbn [Zdigits2]; [lia| |lia].
  assert (Hd : Zpos (digits2_pos p) <= 8 - e).
  { apply digits2_upper; [lia|].
    replace (8 - e) with (8 + - e) by lia. rewrite Z.pow_add_r by lia.
    assert (0 < 2 ^ (- e)) by (apply Z.pow_pos_nonneg; lia).
    change (2 ^ 8) with 256. lia. }
  lia.
Qed.

Lemma shr_fexp_below (m e : Z) (mrs : shr_record) (e' : Z) :
  below255 m e ->
  shr_fexp prec emax m e loc_Exact = (mrs, e') ->
  below255 (shr_m mrs) e'.
Proof.
  intros Hb. pose proof (Zdigits2_below m e Hb) as Hd.
  pose proof (fexp_below _ Hd) as Hf. destruct Hb as [He [Hm0 Hm]].
  unfold shr_fexp, shr.
  destruct (fexp prec emax (Zdigits2 m + e) - e) as [|p|p] eqn:Hn;
    intros H; injection H as <- <-; cbn [shr_record_of_loc shr_m];
    try (split; [lia | split; assumption]).
  destruct (shr_iter p (shr_record_of_loc m loc_Exact) Hm0) as [H1 _].
  cbn [shr_record_of_loc shr_m] in H1. rewrite H1.
  split; [lia|]. split; [apply div_pow2_nonneg; exact Hm0|].
  apply Z.div_lt_upper_bound; [apply Z.pow_pos_nonneg; lia|].
  replace (- e) with (Zpos p + - (e + Zpos p)) in Hm by lia.
  rewrite Z.pow_add_r in Hm by lia. lia.
Qed.

Lemma shr_fexp_round_below (M : positive) (E : Z) (mrs : shr_record) (e1 : Z) :
  -1119 <= E <= -98 ->
  Zpos M <= 255 * 2 ^ (- E) - 255 * 2 ^ 45 ->
  Zpos M < 255 * 2 ^ 98 ->
  shr_fexp prec emax (Zpos M) E loc_Exact = (mrs, e1) ->
  below255 (round_nearest_even (shr_m mrs) (loc_of_shr_record mrs)) e1.
Proof.
  intros HE Hgap Htop.
  assert (Hb : below255 (Zpos M) E).
  { split; [lia|]. split; [lia|]. change (2 ^ 45) with 35184372088832 in Hgap. lia. }
  pose proof (Zdigits2_below _ _ Hb) as Hd.
  pose proof (fexp_below _ Hd) as Hf.
  unfold shr_fexp, shr.
  destruct (fexp prec emax (Zdigits2 (Zpos M) + E) - E) as [|p|p] eqn:Hn;
    intros H; injection H as <- <-; try exact Hb.
  destruct (shr_round_upper p (Zpos M) ltac:(lia)) as [HR0 HR].
  set (R := round_nearest_even _ _) in *.
  assert (Hh : 2 ^ (Zpos p - 1) < 255 * 2 ^ 45).
  { unfold fexp, emin, prec, emax in Hn. cbn [Zdigits2] in Hn.
    destruct (Z.max_spec (Zpos (digits2_pos M) + E - 53) (3 - 1024 - 53))
      as [[Hlt Hmax]|[Hge Hmax]]; rewrite Hmax in Hn.
    - assert (2 ^ (Zpos p - 1) <= 2 ^ 44) by (apply Z.pow_le_mono_r; lia).
      change (2 ^ 44) with 17592186044416 in *.
      change (2 ^ 45) with 35184372088832. lia.
    - pose proof (digits2_lower M) as Hl.
      replace (Zpos (digits2_pos M) - 1) with (Zpos p - 1 + 53) in Hl by lia.
      rewrite Z.pow_add_r in Hl by lia.
      change (2 ^ 98) with (2 ^ 45 * 2 ^ 53) in Htop.
      assert (0 < 2 ^ 53) by reflexivity.
      nia. }
  split; [lia|]. split; [exact HR0|].
  assert (Hp : 0 < 2 ^ Zpos p) by (apply Z.pow_pos_nonneg; lia).
  assert (Hsplit : 2 ^ (- E) = 2 ^ (- (E + Zpos p)) * 2 ^ Zpos p).
  { rewrite <- Z.pow_add_r by lia. f_equal. lia. }
  rewrite Hsplit in Hgap.
  apply (Z.mul_lt_mono_pos_r (2 ^ Zpos p)); [exact Hp|]. lia.
Qed.

(** A truncating shift keeps the integer part. *)
Lemma shr_fexp_floor (m e : Z) (mrs : shr_record) (e' : Z) :
  below255 m e ->
  shr_fexp prec emax m e loc_Exact = (mrs, e') ->
  shr_m mrs / 2 ^ (- e') = m / 2 ^ (- e).
Proof.
  intros Hb H. pose proof (shr_fexp_below m e mrs e' Hb H) as [He' _].
  destruct Hb as [He [Hm0 Hm]]. revert H. unfold shr_fexp, shr.
  destruct (fexp prec emax (Zdigits2 m + e) - e) as [|p|p] eqn:Hn;
    intros H; injection H as <- <-; cbn [shr_record_of_loc shr_m];
    try reflexivity.
  destruct (shr_iter p (shr_record_of_loc m loc_Exact) Hm0) as [H1 _].
  cbn [shr_record_of_loc shr_m] in H1. rewrite H1.
  rewrite div_pow2_div by lia. f_equal. f_equal. lia.
Qed.

(** Rounding to nearest moves the integer part up by one at most. *)
Lemma shr_fexp_round_floor (M : positive) (E : Z) (mrs : shr_record) (e1 : Z) :
  -1119 <= E <= -98 ->
  Zpos M <= 255 * 2 ^ (- E) - 255 * 2 ^ 45 ->
  Zpos M < 255 * 2 ^ 98 ->
  shr_fexp prec emax (Zpos M) E loc_Exact = (mrs, e1) ->
  Zpos M / 2 ^ (- E)
  <= round_nearest_even (shr_m mrs) (loc_of_shr_record mrs) / 2 ^ (- e1)
  <= Zpos M / 2 ^ (- E) + 1.
Proof.
  intros HE Hgap Htop H.
  pose proof (shr_fexp_round_below M E mrs e1 HE Hgap Htop H) as [He1 _].
  pose proof (round_nearest_even_bounds mrs) as [Hlo Hhi].
  assert (Hb : below255 (Zpos M) E).
  { split; [lia|]. split; [lia|]. change (2 ^ 45) with 35184372088832 in Hgap. lia. }
  pose proof (shr_fexp_floor _ _ _ _ Hb H) as Hfloor.
  set (R := round_nearest_even _ _) in *.
  assert (Hd : 0 < 2 ^ (- e1)) by (apply Z.pow_pos_nonneg; lia).
  assert (Hr : R <= shr_m mrs + 1) by (destruct (shr_r mrs); cbn [Z.b2z] in Hhi; lia).
  rewrite <- Hfloor. split.
  - apply Z.div_le_mono; [exact Hd | exact Hlo].
  - apply Z.le_trans with ((shr_m mrs + 1 * 2 ^ (- e1)) / 2 ^ (- e1)).
    + apply Z.div_le_mono; [exact Hd | lia].
    + rewrite Z.div_add by lia. lia.
Qed.

(** The integer part of the correctly rounded image of a product below
    255 is that of the product, or one more. *)
Lemma binary_round_aux_floor (M : positive) (E : Z) :
  -1119 <= E <= -98 ->
  Zpos M <= 255 * 2 ^ (- E) - 255 * 2 ^ 45 ->
  Zpos M < 255 * 2 ^ 98 ->
  (binary_round_aux prec emax false (Zpos M) E loc_Exact = S754_zero false
   /\ Zpos M / 2 ^ (- E) = 0)
  \/ exists m' e',
      binary_round_aux prec emax false (Zpos M) E loc_Exact = S754_finite false m' e'
      /\ below255 (Zpos m') e'
      /\ Zpos M / 2 ^ (- E) <= Zpos m' / 2 ^ (- e') <= Zpos M / 2 ^ (- E) + 1.
Proof.
  intros HE Hgap Htop. unfold binary_round_aux.
  destruct (shr_fexp prec emax (Zpos M) E loc_Exact) as [mrs e1] eqn:H1.
  pose proof (shr_fexp_round_below M E mrs e1 HE Hgap Htop H1) as Hb1.
  pose proof (shr_fexp_round_floor M E mrs e1 HE Hgap Htop H1) as Hf1.
  destruct (shr_fexp prec emax
              (round_nearest_even (shr_m mrs) (loc_of_shr_record mrs)) e1 loc_Exact)
    as [mrs' e2] eqn:H2.
  pose proof (shr_fexp_below _ _ _ _ Hb1 H2) as Hb2.
  pose proof (shr_fexp_floor _ _ _ _ Hb1 H2) as Hf2.
  rewrite <- Hf2 in Hf1.
  assert (Hq : 0 <= Zpos M / 2 ^ (- E)) by (apply div_pow2_nonneg; lia).
  destruct (shr_m mrs') as [|m'|m'] eqn:Hm.
  - left. split; [reflexivity|]. rewrite Z.div_0_l in Hf1; [lia|].
    apply Z.pow_nonzero; destruct Hb2; lia.
  - right. exists m', e2. split; [|split; [exact Hb2 | exact Hf1]].
    destruct Hb2 as [He2 _].
    destruct (Z.leb_spec e2 (emax - prec)) as [_|Hgt]; [reflexivity|].
    unfold emax, prec in Hgt. lia.
  - destruct Hb2 as [_ [H0 _]]. lia.
Qed.

Lemma number_eqb_eq (x y : number) : number_eqb x y = true -> x = y.
Proof.
  destruct x as [a|a| |a m e], y as [b|b| |b m' e']; cbn [number_eqb];
    try discriminate; try reflexivity.
  - intros H. apply eqb_prop in H. subst. reflexivity.
  - intros H. apply eqb_prop in H. subst. reflexivity.
  - intros H. apply andb_true_iff in H. destruct H as [H He].
    apply andb_true_iff in H. destruct H as [Hs Hm].
    apply eqb_prop in Hs. apply Pos.eqb_eq in Hm. apply Z.eqb_eq in He.
    subst. reflexivity.
Qed.

Lemma inUnitInterval_finite (s : bool) (m : positive) (e : Z) :
  inUnitInterval (S754_finite s m e) = true ->
  s = false /\ -1074 <= e <= -53 /\ Zpos m < 2 ^ 53.
Proof.
  unfold inUnitInterval. intros H.
  apply andb_true_iff in H. destruct H as [H Hlt].
  apply andb_true_iff in H. destruct H as [Hvalid Hle].
  assert (Hs : s = false) by (destruct s; [discriminate Hle | reflexivity]).
  subst s. split; [reflexivity|].
  cbn [valid_binary] in Hvalid. unfold bounded, canonical_mantissa in Hvalid.
  apply andb_true_iff in Hvalid. destruct Hvalid as [Hc _].
  apply Z.eqb_eq in Hc. unfold fexp, emin, prec, emax in Hc.
  pose proof (digits2_lower m) as Hl.
  assert (Hd : Zpos (digits2_pos m) <= 53) by lia.
  assert (Hm : Zpos m < 2 ^ 53).
  { pose proof (Pos.size_gt m) as Hg. rewrite <- digits2_pos_size in Hg.
    apply Pos2Z.pos_lt_pos in Hg. rewrite Pos2Z.inj_pow in Hg.
    assert (2 ^ Zpos (digits2_pos m) <= 2 ^ 53) by (apply Z.pow_le_mono_r; lia).
    change (Zpos 2) with 2 in Hg. lia. }
  split; [|exact Hm]. split; [lia|].
  change (Number_ofZ 1) with (S754_finite false 4503599627370496 (-52)) in Hlt.
  unfold SFltb in Hlt. cbn [SFcompare] in Hlt.
  destruct (Z.compare_spec e (-52)) as [He|He|He]; [|lia|discriminate Hlt].
  exfalso. subst e.
  assert (Hd53 : Zpos (digits2_pos m) = 53) by lia.
  rewrite Hd53 in Hl. change (2 ^ (53 - 1)) with 4503599627370496 in Hl.
  pose proof (Pos.compare_spec m 4503599627370496) as Hcs.
  unfold Pos.compare in Hcs.
  destruct Hcs as [Hc'|Hc'|Hc']; try discriminate Hlt.
  apply Pos2Z.pos_lt_pos in Hc'. lia.
Qed.

(** Below 255 the floor is one of 0, ..., 254, and adding 1 to it is
    exact. *)
Lemma floor_plus_one (q : Z) :
  0 <= q <= 254 ->
  Number_add match q with
             | 0 => S754_zero false
             | Zpos p => Number_ofZ (Zpos p)
             | Zneg p => Number_ofZ (Zneg p)
             end (Number_ofZ 1)
  = Number_ofZ (q + 1).
Proof.
  intros Hq.
  assert (Hall : forallb (fun i =>
                  number_eqb
                    (Number_add match Z.of_nat i with
                                | 0 => S754_zero false
                                | Zpos p => Number_ofZ (Zpos p)
                                | Zneg p => Number_ofZ (Zneg p)
                                end (Number_ofZ 1))
                    (Number_ofZ (Z.of_nat i + 1)))
                  (seq 0 255) = true) by (vm_compute; reflexivity).
  rewrite forallb_forall in Hall.
  specialize (Hall (Z.to_nat q)). rewrite Z2Nat.id in Hall by lia.
  cbv beta in Hall. apply number_eqb_eq. apply Hall. apply in_seq. lia.
Qed.

(** What [generateRandomOctet] computes from a random value. *)
Lemma octet_of_draw (r : number) :
  inUnitInterval r = true ->
  exists o, octetOfDraw r o
            /\ Number_add (Math_floor (Number_mul r (Number_ofZ 255))) (Number_ofZ 1)
               = Number_ofZ o.
Proof.
  intros H. destruct r as [s|s| |s m e].
  - exists 1. split; [split; cbn [exactFloor255]; lia | destruct s; reflexivity].
  - destruct s; discriminate H.
  - discriminate H.
  - destruct (inUnitInterval_finite s m e H) as [-> [He Hm]].
    change (Number_ofZ 255) with (S754_finite false 8972014882652160 (-45)).
    unfold Number_mul. cbn [SFmul xorb].
    assert (Hexact : Zpos (m * 8972014882652160) / 2 ^ (- (e + -45))
                     = exactFloor255 (S754_finite false m e)).
    { cbn [exactFloor255 cond_Zopp].
      destruct (Z.leb_spec 0 e) as [Hge|_]; [lia|].
      rewrite Pos2Z.inj_mul.
      replace (- (e + -45)) with (- e + 45) by lia.
      rewrite Z.pow_add_r by lia.
      change (Zpos 8972014882652160) with (255 * 2 ^ 45).
      replace (Zpos m * (255 * 2 ^ 45)) with (255 * Zpos m * 2 ^ 45) by lia.
      apply Z.div_mul_cancel_r; [apply Z.pow_nonzero; lia | discriminate]. }
    destruct (binary_round_aux_floor (m * 8972014882652160) (e + -45))
      as [[Hz Hq]|[m' [e' [Hf [[He' [_ Hm']] Hq]]]]].
    + lia.
    + rewrite Pos2Z.inj_mul.
      replace (- (e + -45)) with (45 + - e) by lia.
      rewrite Z.pow_add_r by lia.
      assert (2 ^ 53 <= 2 ^ (- e)) by (apply Z.pow_le_mono_r; lia).
      change (2 ^ 45) with 35184372088832.
      change (Zpos 8972014882652160) with (255 * 35184372088832). nia.
    + rewrite Pos2Z.inj_mul.
      change (2 ^ 98) with (35184372088832 * 2 ^ 53).
      change (Zpos 8972014882652160) with (255 * 35184372088832). nia.
    + rewrite Hz. exists 1. unfold octetOfDraw. rewrite <- Hexact, Hq.
      split; [split; lia | reflexivity].
    + rewrite Hf. cbn [Math_floor cond_Zopp].
      destruct (Z.leb_spec 0 e') as [Hge|_]; [lia|].
      assert (Hp : 0 < 2 ^ (- e')) by (apply Z.pow_pos_nonneg; lia).
      assert (Hq0 : 0 <= Zpos m' / 2 ^ (- e')) by (apply Z.div_pos; lia).
      assert (Hq1 : Zpos m' / 2 ^ (- e') < 255)
        by (apply Z.div_lt_upper_bound; lia).
      exists (Zpos m' / 2 ^ (- e') + 1). unfold octetOfDraw. rewrite <- Hexact.
      split; [split; lia|].
      apply floor_plus_one. lia.
Qed.

(** ** The client identity *)

Lemma Number_toString_octet (platform : Platform) (o : Z) :
  1 <= o <= 255 -> Number_toString (Number_ofZ o) = decimal o.
Proof.
  intros Ho.
  assert (Hall : forallb (fun i =>
                  jsstring_eqb (Number_toString (Number_ofZ (Z.of_nat i)))
                               (decimal (Z.of_nat i)))
                  (seq 1 255) = true) by (vm_compute; reflexivity).
  rewrite forallb_forall in Hall.
  specialize (Hall (Z.to_nat o)). cbv beta in Hall.
  rewrite Z2Nat.id in Hall by lia.
  apply jsstring_eqb_eq. apply Hall. apply in_seq. lia.
Qed.

Lemma generateRandomOctet_octet (w : World) :
  inUnitInterval (random w (drawn w)) = true ->
  exists o, octetOfDraw (random w (drawn w)) o
            /\ generateRandomOctet w = (inr (Number_ofZ o), draws 1 w).
Proof.
  intros H. destruct (octet_of_draw _ H) as [o [Ho Heq]].
  exists o. split; [exact Ho|].
  rewrite generateRandomOctet_draw, Heq. reflexivity.
Qed.

(** C9: when the randomness source yields numbers of [0, 1), each of
    the four octets is an integer from 1 to 255 computed by
    [generateRandomOctet] from a draw of its own, the next one of the
    source, and from no other: it is the integer part of 255 times that
    draw, plus one (plus two at most, where the binary64 product rounds
    up to an integer); the address is the four in decimal, dotted. *)
Theorem generateIPAddress_octets (platform : Platform) (w : World) :
  (forall i, inUnitInterval (random w i) = true) ->
  exists o1 o2 o3 o4,
    (octetOfDraw (random w (drawn w)) o1
     /\ octetOfDraw (random w (1 + drawn w)) o2
     /\ octetOfDraw (random w (2 + drawn w)) o3
     /\ octetOfDraw (random w (3 + drawn w)) o4)
    /\ generateRandomOctet w = (inr (Number_ofZ o1), draws 1 w)
    /\ generateRandomOctet (draws 1 w) = (inr (Number_ofZ o2), draws 2 w)
    /\ generateRandomOctet (draws 2 w) = (inr (Number_ofZ o3), draws 3 w)
    /\ generateRandomOctet (draws 3 w) = (inr (Number_ofZ o4), draws 4 w)
    /\ generateIPAddress w
       = (inr (decimal o1 ++ u "." ++ decimal o2 ++ u "."
               ++ decimal o3 ++ u "." ++ decimal o4),
          draws 4 w).
Proof.
  intros Hr.
  destruct (generateRandomOctet_octet w (Hr _)) as [o1 [H1 E1]].
  destruct (generateRandomOctet_octet (draws 1 w) (Hr _)) as [o2 [H2 E2]].
  destruct (generateRandomOctet_octet (draws 2 w) (Hr _)) as [o3 [H3 E3]].
  destruct (generateRandomOctet_octet (draws 3 w) (Hr _)) as [o4 [H4 E4]].
  rewrite draws_draws in E2, E3, E4. cbn [Nat.add] in E2, E3, E4.
  cbn [draws random drawn] in H2, H3, H4.
  exists o1, o2, o3, o4.
  split; [repeat split; first [apply H1 | apply H2 | apply H3 | apply H4]|].
  repeat (split; [assumption|]).
  unfold generateIPAddress, bind, ret. rewrite E1, E2, E3, E4.
  rewrite !(Number_toString_octet platform)
    by first [apply H1 | apply H2 | apply H3 | apply H4].
  reflexivity.
Qed.

Lemma generateIPAddress_octets_witness :
  @generateIPAddress (stubPlatform Undefined) eighthsWorld
  = (inr (u "32.64.96.128"), draws 4 eighthsWorld).
Proof.
  destruct (generateIPAddress_octets (stubPlatform Undefined) eighthsWorld)
    as [o1 [o2 [o3 [o4 [[[_ B1] [[_ B2] [[_ B3] [_ B4]]]] [E1 [E2 [E3 [E4 Hip]]]]]]]]].
  - intros i. cbn [eighthsWorld random].
    pose proof (Nat.mod_upper_bound i 4 ltac:(discriminate)) as Hi.
    destruct (i mod 4)%nat as [|[|[|[|n]]]];
      [reflexivity | reflexivity | reflexivity | reflexivity | lia].
  - assert (H1 : o1 = 32).
    { match type of B1 with ?q + 1 <= _ <= _ =>
        replace q with 31 in B1 by (vm_compute; reflexivity)
      end.
      assert (Hc : o1 = 32 \/ o1 = 33) by lia.
      destruct Hc as [Hc|Hc]; [exact Hc|].
      subst o1. apply (f_equal fst) in E1. vm_compute in E1. discriminate E1. }
    assert (H2 : o2 = 64).
    { match type of B2 with ?q + 1 <= _ <= _ =>
        replace q with 63 in B2 by (vm_compute; reflexivity)
      end.
      assert (Hc : o2 = 64 \/ o2 = 65) by lia.
      destruct Hc as [Hc|Hc]; [exact Hc|].
      subst o2. apply (f_equal fst) in E2. vm_compute in E2. discriminate E2. }
    assert (H3 : o3 = 96).
    { match type of B3 with ?q + 1 <= _ <= _ =>
        replace q with 95 in B3 by (vm_compute; reflexivity)
      end.
      assert (Hc : o3 = 96 \/ o3 = 97) by lia.
      destruct Hc as [Hc|Hc]; [exact Hc|].
      subst o3. apply (f_equal fst) in E3. vm_compute in E3. discriminate E3. }
    assert (H4 : o4 = 128).
    { match type of B4 with ?q + 1 <= _ <= _ =>
        replace q with 127 in B4 by (vm_compute; reflexivity)
      end.
      assert (Hc : o4 = 128 \/ o4 = 129) by lia.
      destruct Hc as [Hc|Hc]; [exact Hc|].
      subst o4. apply (f_equal fst) in E4. vm_compute in E4. discriminate E4. }
    rewrite Hip, H1, H2, H3, H4. reflexivity.
Defined.

(** * Further properties *)

(** ** More on the plate validator *)

Lemma dropFirst_split (p : jschar -> bool) (s : jsstring) :
  dropFirst p s = s
  \/ exists pre c post,
      s = pre ++ c :: post /\ dropFirst p s = pre ++ post
      /\ p c = true /\ forallb (fun x => negb (p x)) pre = true.
Proof.
  induction s as [|c s IH]; [left; reflexivity|].
  cbn [dropFirst]. destruct (p c) eqn:Hc.
  - right. exists [], c, s. repeat split. exact Hc.
  - destruct IH as [IH|[pre [d [post [Hs [Hd [Hpd Hpre]]]]]]].
    + left. rewrite IH. reflexivity.
    + right. exists (c :: pre), d, post. rewrite Hs at 1. rewrite Hd.
      repeat split; [exact Hpd|]. cbn [forallb]. rewrite Hc, Hpre. reflexivity.
Qed.

(** X1: what [validate] returns is its input, as it is, or with its
    first character that is not a letter or a digit taken out: nothing
    else is removed and no letter changes case. *)
Theorem validate_keeps_input (s p : jsstring) :
  validate s = inr p ->
  p = dropFirst isSpecial s
  /\ (p = s
      \/ exists pre c post,
          s = pre ++ c :: post /\ p = pre ++ post
          /\ isSpecial c = true /\ forallb isAlnum pre = true).
Proof.
  unfold validate. rewrite replace_SPECIAL.
  destruct (RegExp.test PLATE_FORMAT (dropFirst isSpecial s)); [|discriminate].
  cbn [negb]. intros H. injection H as <-. split; [reflexivity|].
  destruct (dropFirst_split isSpecial s) as [H|[pre [c [post [Hs [Hd [Hc Hpre]]]]]]].
  - left. exact H.
  - right. exists pre, c, post. repeat split; try assumption.
    rewrite <- Hpre. clear. induction pre as [|x pre IH]; [reflexivity|].
    cbn [forallb]. rewrite IH. unfold isSpecial.
    rewrite negb_involutive. reflexivity.
Qed.

Lemma validate_keeps_input_witness :
  u "abC1234" = dropFirst isSpecial (u "abC.1234")
  /\ (u "abC1234" = u "abC.1234"
      \/ exists pre c post,
          u "abC.1234" = pre ++ c :: post /\ u "abC1234" = pre ++ post
          /\ isSpecial c = true /\ forallb isAlnum pre = true).
Proof. exact (validate_keeps_input (u "abC.1234") (u "abC1234") eq_refl). Defined.

Lemma line_terminator_not_alnum (c : jschar) :
  RegExp.isLineTerminator c = true -> isLetter c = false /\ isDigit c = false.
Proof.
  unfold RegExp.isLineTerminator, isLetter, isDigit. intros H.
  apply orb_true_iff in H. destruct H as [H|H];
    [apply orb_true_iff in H; destruct H as [H|H];
     [apply orb_true_iff in H; destruct H as [H|H]|]|];
    apply N.eqb_eq in H; subst c; split; reflexivity.
Qed.

Lemma lines_cons (c : jschar) (s : jsstring) :
  lines (c :: s)
  = if RegExp.isLineTerminator c then [] :: lines s
    else (c :: hd [] (lines s)) :: tl (lines s).
Proof.
  cbn [lines]. destruct (RegExp.isLineTerminator c); [reflexivity|].
  destruct (lines s) as [|l ls] eqn:Hl; [|reflexivity].
  destruct s; cbn [lines] in Hl; [discriminate|].
  destruct (RegExp.isLineTerminator j); [discriminate|].
  destruct (lines s); discriminate.
Qed.

Lemma platePrefix_first_line (s : jsstring) :
  platePrefix s = matches_plate (hd [] (lines s)).
Proof.
  destruct s as [|a [|b [|c [|d [|e [|f [|g [|h t]]]]]]]];
    rewrite ?lines_cons; cbn [platePrefix lines hd tl matches_plate];
    repeat match goal with
           | |- context [RegExp.isLineTerminator ?x] =>
               let H := fresh "H" in
               destruct (RegExp.isLineTerminator x) eqn:H;
               [destruct (line_terminator_not_alnum x H) as [? ?]|];
               cbn [hd tl matches_plate]
           end;
    repeat match goal with
           | E : isLetter ?x = false |- _ => rewrite E; clear E
           | E : isDigit ?x = false |- _ => rewrite E; clear E
           end;
    rewrite ?andb_false_r, ?andb_true_r; cbn [andb]; try reflexivity.
Qed.

Lemma matchTerms_PLATE_FORMAT_line (prev : option jschar) (s : jsstring) :
  RegExp.matchTerms PLATE_FORMAT (RegExp.pattern PLATE_FORMAT) prev s
  = if atLineStart prev && platePrefix s then Some (skipn 7 s) else None.
Proof.
  destruct prev as [c0|]; cbn [atLineStart];
    [destruct (RegExp.isLineTerminator c0) eqn:H0;
     [|cbn [andb]; apply matchTerms_PLATE_FORMAT_inside; exact H0]|];
    cbn [andb];
    (destruct s as [|a [|b [|c [|d [|e [|f [|g [|h t]]]]]]]];
     cbn [platePrefix skipn];
     repeat first
       [ progress run_matcher
       | rewrite H0
       | rewrite letters_class
       | rewrite digits_class
       | match goal with
         | |- context [if isLetter ?x then _ else _] => destruct (isLetter x)
         | |- context [if isDigit ?x then _ else _] => destruct (isDigit x)
         | |- context [if RegExp.isLineTerminator ?x then _ else _] =>
             destruct (RegExp.isLineTerminator x)
         end ];
     try reflexivity).
Qed.

Lemma existsb_lines_cons (c : jschar) (s : jsstring) :
  existsb matches_plate (tl (lines (c :: s)))
  = if RegExp.isLineTerminator c then existsb matches_plate (lines s)
    else existsb matches_plate (tl (lines s)).
Proof. rewrite lines_cons. destruct (RegExp.isLineTerminator c); reflexivity. Qed.

Lemma existsb_lines (s : jsstring) :
  existsb matches_plate (lines s)
  = platePrefix s || existsb matches_plate (tl (lines s)).
Proof.
  rewrite platePrefix_first_line.
  destruct (lines s) as [|l ls] eqn:Hl; [|reflexivity].
  destruct s as [|c s]; [discriminate Hl|].
  rewrite lines_cons in Hl. destruct (RegExp.isLineTerminator c); discriminate Hl.
Qed.

Lemma execFrom_PLATE_FORMAT_lines (s beforeRev : jsstring) :
  match RegExp.execFrom PLATE_FORMAT beforeRev s with
  | Some _ => true
  | None => false
  end
  = if atLineStart (hd_error beforeRev) then existsb matches_plate (lines s)
    else existsb matches_plate (tl (lines s)).
Proof.
  revert beforeRev. induction s as [|c s IH]; intros beforeRev.
  - cbn [RegExp.execFrom]. rewrite matchTerms_PLATE_FORMAT_line.
    cbn [platePrefix]. rewrite andb_false_r.
    destruct (atLineStart (hd_error beforeRev)); reflexivity.
  - cbn [RegExp.execFrom]. rewrite matchTerms_PLATE_FORMAT_line.
    rewrite (existsb_lines (c :: s)), existsb_lines_cons.
    specialize (IH (c :: beforeRev)). cbn [hd_error atLineStart] in IH.
    destruct (atLineStart (hd_error beforeRev)); cbn [andb].
    + destruct (platePrefix (c :: s)); [reflexivity|]. cbn [orb]. exact IH.
    + exact IH.
Qed.

(** With the [m] flag, [PLATE_FORMAT] tests whether some line of the
    string is a plate. *)
Lemma test_PLATE_FORMAT_lines (s : jsstring) :
  RegExp.test PLATE_FORMAT s = existsb matches_plate (lines s).
Proof. exact (execFrom_PLATE_FORMAT_lines s []). Qed.

(** X2: [validate] accepts its input exactly when, once the first
    special character is taken out, some line of what is left is a
    plate; it then returns all the lines, not that one. *)
Theorem validate_accepts_some_line (s : jsstring) :
  validate s
  = if existsb matches_plate (lines (dropFirst isSpecial s))
    then inr (dropFirst isSpecial s)
    else inl ValidationError.
Proof.
  unfold validate. rewrite replace_SPECIAL, test_PLATE_FORMAT_lines.
  destruct (existsb matches_plate (lines (dropFirst isSpecial s))); reflexivity.
Qed.

(** X3: a plate that [validate] returned for an input without line
    terminators is returned unchanged when it is validated again. *)
Theorem validate_again (s p : jsstring) :
  noLineTerminator s = true ->
  validate s = inr p ->
  validate p = inr p.
Proof.
  intros Hl Hv. destruct (validate_one_line_plate s p Hl Hv) as [Hm _].
  pose proof (matches_plate_alnum p Hm) as Ha.
  assert (Hd : dropFirst isSpecial p = p).
  { clear - Ha. induction p as [|c p IH]; [reflexivity|].
    cbn [forallb] in Ha. apply andb_true_iff in Ha. destruct Ha as [Hc Ha].
    cbn [dropFirst]. unfold isSpecial at 1. rewrite Hc. cbn [negb].
    rewrite IH by exact Ha. reflexivity. }
  rewrite validate_one_line; rewrite Hd.
  - rewrite Hm. reflexivity.
  - apply alnum_noLineTerminator. exact Ha.
Qed.

Lemma validate_again_witness : validate (u "ABC1234") = inr (u "ABC1234").
Proof. exact (validate_again (u "ABC-1234") (u "ABC1234") eq_refl eq_refl). Defined.

(** ** More on the configuration *)

Lemma orElse_truthy {A : Type} (truthy : A -> bool) (x : option A) (d : A) :
  truthy d = true -> truthy (orElse truthy x d) = true.
Proof.
  intros Hd. unfold orElse. destruct x as [a|]; [|exact Hd].
  destruct (truthy a) eqn:Ha; [exact Ha | exact Hd].
Qed.

(** X4: whatever its argument, [configure] leaves no string field of
    [opts] empty: an empty string falls back to the default like a
    missing one. *)
Theorem configure_strings_not_empty (options : option Options) :
  host (configure options) <> []
  /\ endpoint (configure options) <> []
  /\ serviceVersion (configure options) <> []
  /\ androidVersion (configure options) <> []
  /\ secret (configure options) <> [].
Proof.
  assert (H : forall x d, truthyString d = true -> orElse truthyString x d <> []).
  { intros x d Hd E. pose proof (orElse_truthy truthyString x d Hd) as Ht.
    rewrite E in Ht. discriminate Ht. }
  unfold configure. cbn [host endpoint serviceVersion androidVersion secret].
  repeat split; apply H; reflexivity.
Qed.

Lemma orElse_again {A : Type} (truthy : A -> bool) (x : option A) (d : A) :
  orElse truthy (Some (orElse truthy x d)) d = orElse truthy x d.
Proof.
  unfold orElse. destruct x as [a|].
  - destruct (truthy a) eqn:Ha; [rewrite Ha; reflexivity|].
    destruct (truthy d); reflexivity.
  - destruct (truthy d); reflexivity.
Qed.

Lemma orUndefined_again {A : Type} (truthy : A -> bool) (x : option A) :
  orUndefined truthy (orUndefined truthy x None) None = orUndefined truthy x None.
Proof.
  unfold orUndefined. destruct x as [a|]; [|reflexivity].
  destruct (truthy a) eqn:Ha; [rewrite Ha|]; reflexivity.
Qed.

(** X5: configuring again with the configuration that [configure]
    produced changes nothing. *)
Theorem configure_again (options : option Options) :
  configure (Some (optionsOf (configure options))) = configure options.
Proof.
  set (c := configure options).
  unfold configure at 1. unfold optionsOf.
  cbn [opt_host opt_serviceVersion opt_androidVersion opt_endpoint opt_secret
       opt_timeout opt_maximumRetry opt_proxy].
  subst c. unfold configure.
  cbn [host endpoint serviceVersion androidVersion secret timeout maximumRetry
       proxy proxy_host proxy_port DEFAULT].
  rewrite !orElse_again, !orUndefined_again. reflexivity.
Qed.

(** ** More on the retrying transport *)

(** Whatever the transport does, [retry] from attempt [i] makes some
    number [n] of attempts, at least one and at most one more than the
    retries left; all but the last failed, and the last one decides. *)
Lemma retry_attempts_from (url : jsstring) (options : RequestOptions) (k : nat) :
  forall (i : nat) (w : World),
    k = Z.to_nat (maximumRetry (opts w) - Z.of_nat i) ->
    exists n,
      (n <= k)%nat
      /\ retry url options (Z.of_nat i) (backoff i) w
         = (responses w (requests w + n), attempted url options i (S n) w)
      /\ (forall j, (j < n)%nat -> exists e, responses w (requests w + j) = inl e)
      /\ ((exists e, responses w (requests w + n) = inl e) -> n = k).
Proof.
  induction k as [|k IH]; intros i w Hk.
  - exists 0%nat. split; [lia|]. split.
    + rewrite retry_step, tryRequest_world. rewrite Nat.add_0_r.
      rewrite <- (attempted_next url options i 0 w).
      assert (Hw : attempted url options (S i) 0
                     {| opts := opts w; random := random w; drawn := drawn w;
                        now := now w; responses := responses w;
                        requests := S (requests w);
                        trace := (trace w ++ [Sleep (backoff i)])
                                 ++ [Request url options] |}
                   = {| opts := opts w; random := random w; drawn := drawn w;
                        now := now w; responses := responses w;
                        requests := S (requests w);
                        trace := (trace w ++ [Sleep (backoff i)])
                                 ++ [Request url options] |}).
      { unfold attempted, attemptsTrace.
        cbn [opts random drawn now responses requests trace seq flat_map].
        rewrite Nat.add_0_r, app_nil_r. reflexivity. }
      rewrite Hw.
      destruct (responses w (requests w)) as [e|r]; [|reflexivity].
      cbn [opts].
      destruct (Z.geb_spec (Z.of_nat i) (maximumRetry (opts w))) as [_|Hlt];
        [reflexivity | lia].
    + split; [intros j Hj; lia | reflexivity].
  - rewrite retry_step, tryRequest_world.
    destruct (responses w (requests w)) as [e|r] eqn:Hr.
    + cbn [opts].
      destruct (Z.geb_spec (Z.of_nat i) (maximumRetry (opts w))) as [Hge|Hlt]; [lia|].
      rewrite backoff_next. replace (Z.of_nat i + 1) with (Z.of_nat (S i)) by lia.
      match goal with |- context [retry _ _ _ _ ?w1] =>
        destruct (IH (S i) w1) as [n [Hn [Hretry [Hfail Hlast]]]]
      end.
      { cbn [opts]. lia. }
      exists (S n). split; [lia|]. split.
      * rewrite Hretry. cbn [responses requests]. rewrite attempted_next.
        f_equal. f_equal. lia.
      * cbn [responses requests] in Hfail, Hlast. split.
        -- intros j Hj. destruct j as [|j].
           ++ exists e. rewrite Nat.add_0_r. exact Hr.
           ++ destruct (Hfail j) as [e' He']; [lia|]. exists e'.
              rewrite <- He'. f_equal. lia.
        -- intros [e' He']. f_equal. apply Hlast. exists e'.
           rewrite <- He'. f_equal. lia.
    + exists 0%nat. split; [lia|]. split.
      * rewrite Nat.add_0_r, Hr. rewrite <- (attempted_next url options i 0 w).
        unfold attempted, attemptsTrace.
        cbn [opts random drawn now responses requests trace seq flat_map].
        rewrite Nat.add_0_r, app_nil_r. reflexivity.
      * split; [intros j Hj; lia|]. intros [e He].
        rewrite Nat.add_0_r, Hr in He. discriminate He.
Qed.

(** X6: when [maximumRetry] is a whole number, as [Config] holds it,
    then whatever the transport does, [retry] ends after [n + 1]
    attempts with [n] at most [maximumRetry] (none when that is
    negative); the first [n] attempts failed, and what [retry] returns is
    the settlement of the last one, which can only be a failure when the
    retries are used up. A [maximumRetry] that is not a whole number
    (1.5, [Infinity]) is outside [Config], and this says nothing of it. *)
Theorem retry_attempts (url : jsstring) (options : RequestOptions) (w : World) :
  exists n,
    Z.of_nat n <= Z.max 0 (maximumRetry (opts w))
    /\ retry url options 0 (Number_ofZ 0) w
       = (responses w (requests w + n), attempted url options 0 (S n) w)
    /\ (forall j, (j < n)%nat -> exists e, responses w (requests w + j) = inl e)
    /\ ((exists e, responses w (requests w + n) = inl e) ->
        Z.of_nat n = Z.max 0 (maximumRetry (opts w))).
Proof.
  destruct (retry_attempts_from url options
              (Z.to_nat (maximumRetry (opts w) - Z.of_nat 0)) 0 w eq_refl)
    as [n [Hn [Hretry [Hfail Hlast]]]].
  exists n. split; [lia|]. split; [exact Hretry|]. split; [exact Hfail|].
  intros He. rewrite (Hlast He). lia.
Qed.

(** ** More on the search pipeline *)

Lemma request_explicit (platform : Platform) (body : jsstring) (w : World) :
  request body w
  = match retry (requestUrl (opts w)) (requestOptions (opts w) body) 0
            (Number_ofZ 0) w with
    | (inr response, w') => (normalize response, w')
    | (inl e, w') => (inl e, w')
    end.
Proof. reflexivity. Qed.

(** X7: a plate that [validate] rejects stops the search at once: the
    error is the validation error and the world is as before, no random
    value taken, no timer set, no request issued. *)
Theorem search_invalid_plate (platform : Platform) (raw : jsstring) (e : exception)
  (w : World) :
  validate raw = inl e ->
  search (Some raw) w = (inl ValidationError, w) /\ e = ValidationError.
Proof.
  intros Hv. unfold search, generateBody. unfold bind at 1 2. unfold settle.
  rewrite Hv. split; [|].
  - f_equal. f_equal. unfold validate in Hv.
    destruct (negb _) in Hv; [injection Hv as <-; reflexivity | discriminate].
  - unfold validate in Hv.
    destruct (negb _) in Hv; [injection Hv as <-; reflexivity | discriminate].
Qed.

Lemma search_invalid_plate_witness :
  @search (stubPlatform Undefined) (Some (u "ABC-12-34")) (stubWorld 3 0)
  = (inl ValidationError, stubWorld 3 0).
Proof.
  exact (proj1 (search_invalid_plate (stubPlatform Undefined) (u "ABC-12-34")
                  ValidationError (stubWorld 3 0) eq_refl)).
Defined.



(** X8: an answer of the transport ends the search, whatever the
    decoder makes of it: a response that [normalize] rejects is not
    retried, however many retries are left. *)
Theorem search_status_not_retried (platform : Platform) (raw plate : jsstring)
  (w : World) (response : jsstring) (e : exception) :
  validate raw = inr plate ->
  responses w (requests w) = inr response ->
  normalize response = inl e ->
  fst (search (Some raw) w) = inl e
  /\ requests (snd (search (Some raw) w)) = S (requests w).
Proof.
  intros Hv Hr He.
  destruct (generateBody_validated platform raw plate w Hv) as [ip [lat [long Hbody]]].
  unfold search, bind. rewrite Hbody, request_explicit.
  rewrite retry_step, tryRequest_world. cbn [draws responses requests].
  rewrite Hr, He. split; reflexivity.
Qed.

Lemma search_status_not_retried_witness :
  fst (@search (stubPlatform (responseDocument (u "7") (u "Erro")))
         (Some (u "ABC-1234")) (stubWorld 3 0))
  = inl (Error (u "Erro"))
  /\ requests (snd (@search (stubPlatform (responseDocument (u "7") (u "Erro")))
                      (Some (u "ABC-1234")) (stubWorld 3 0)))
     = 1%nat.
Proof.
  exact (search_status_not_retried
           (stubPlatform (responseDocument (u "7") (u "Erro")))
           (u "ABC-1234") (u "ABC1234") (stubWorld 3 0) (u "<response/>")
           (Error (u "Erro")) eq_refl eq_refl eq_refl).
Defined.

(** ** The timestamp *)

(** A property checked on every integer of a range holds on the range. *)
Lemma forall_range (P : Z -> bool) (lo : Z) (n : nat) :
  forallb (fun i => P (lo + Z.of_nat i)) (seq 0 n) = true ->
  forall z, lo <= z < lo + Z.of_nat n -> P z = true.
Proof.
  intros Hall z Hz. rewrite forallb_forall in Hall.
  specialize (Hall (Z.to_nat (z - lo))).
  replace (lo + Z.of_nat (Z.to_nat (z - lo))) with z in Hall by lia.
  apply Hall. apply in_seq. lia.
Qed.

Lemma pad2Check_all :
  forallb (fun i => pad2Check (0 + Z.of_nat i)) (seq 0 100) = true.
Proof. vm_compute. reflexivity. Qed.

Lemma yearCheck_all :
  forallb (fun i => yearCheck (1000 + Z.of_nat i)) (seq 0 (90 * 100)) = true.
Proof. vm_compute. reflexivity. Qed.

Lemma pad2_digits (n : Z) :
  0 <= n <= 99 ->
  sliceLast 2 (u "00" ++ decimal n) = [digitChar (n / 10); digitChar (n mod 10)].
Proof.
  intros Hn. apply jsstring_eqb_eq.
  apply (forall_range pad2Check 0 100 pad2Check_all). lia.
Qed.

Lemma year_digits (y : Z) :
  1000 <= y <= 9999 ->
  decimal y = [digitChar (y / 1000); digitChar (y / 100 mod 10);
               digitChar (y / 10 mod 10); digitChar (y mod 10)].
Proof.
  intros Hy. apply jsstring_eqb_eq.
  apply (forall_range yearCheck 1000 (90 * 100) yearCheck_all). lia.
Qed.

Lemma twoDigits_digitChar (a b : Z) :
  0 <= a <= 9 -> 0 <= b <= 9 ->
  twoDigits (digitChar a) (digitChar b) = Some (10 * a + b).
Proof.
  intros Ha Hb. unfold twoDigits, digitChar.
  assert (Hd : forall d, 0 <= d <= 9 ->
                 N.leb 48 (Z.to_N (48 + d)) = true
                 /\ N.leb (Z.to_N (48 + d)) 57 = true
                 /\ Z.of_N (Z.to_N (48 + d) - 48) = d).
  { intros d Hd. repeat split; try (apply N.leb_le; lia). lia. }
  destruct (Hd a Ha) as [Ha1 [Ha2 Ha3]]. destruct (Hd b Hb) as [Hb1 [Hb2 Hb3]].
  rewrite Ha1, Ha2, Hb1, Hb2, Ha3, Hb3. reflexivity.
Qed.

(** X11: for a date with a four-digit year, [formatDate] writes 19
    characters, [YYYY-MM-DD HH:mm:ss] with the month counted from 1 and
    every field but the year padded to two digits, from which the date
    can be read back. *)
Theorem formatDate_round_trip (d : Date) :
  calendarDate d ->
  List.length (formatDate d) = 19%nat /\ parseDate (formatDate d) = Some d.
Proof.
  destruct d as [y mo da ho mi se]. unfold calendarDate.
  cbn [getFullYear getMonth getDate getHours getMinutes getSeconds].
  intros [Hy [Hmo [Hda [Hho [Hmi Hse]]]]].
  unfold formatDate.
  cbn [getFullYear getMonth getDate getHours getMinutes getSeconds].
  rewrite year_digits by lia. rewrite !pad2_digits by lia.
  change (u "-") with [45%N]. change (u " ") with [32%N]. change (u ":") with [58%N].
  cbn [app]. split; [reflexivity|].
  cbn [parseDate].
  rewrite !twoDigits_digitChar by (Z.div_mod_to_equations; lia).
  f_equal. f_equal; Z.div_mod_to_equations; lia.
Qed.

Lemma formatDate_round_trip_witness :
  List.length (formatDate (now (stubWorld 0 0))) = 19%nat
  /\ parseDate (formatDate (now (stubWorld 0 0))) = Some (now (stubWorld 0 0)).
Proof.
  apply (formatDate_round_trip (now (stubWorld 0 0))).
  unfold calendarDate. cbn. lia.
Defined.

(** ** The coordinates *)

Lemma Number_mul_infinity (y : number) :
  isFinite (Number_mul (S754_infinity false) y) = false.
Proof. destruct y as [s|s| |s m e]; reflexivity. Qed.

Lemma Number_sub_not_finite (c x : number) :
  isFinite c = false -> isFinite x = true -> isFinite (Number_sub c x) = false.
Proof.
  destruct c as [s|s| |s m e]; try discriminate;
    destruct x as [t|t| |t m' e']; try discriminate; reflexivity.
Qed.

Lemma generateCoordinate_zero (platform : Platform) (w : World) :
  random w (drawn w) = S754_zero false ->
  exists c, generateCoordinate w = (inr c, draws 2 w) /\ isFinite c = false.
Proof.
  intros Hr.
  cbv [generateCoordinate bind Math_random ret draws].
  cbn [drawn random opts now responses requests trace Nat.add].
  rewrite Hr. eexists. split; [reflexivity|].
  change (Number_div (Number_ofZ 2000) (Math_sqrt (S754_zero false)))
    with (S754_infinity false).
  apply Number_mul_infinity.
Qed.

(** X12: when [Math.random] returns 0 for the first of the two values
    of a coordinate, the seed [2000 / Math.sqrt(0)] is infinite and the
    latitude, or the longitude, that comes out is an infinity or NaN,
    whatever the second value and [Math.sin] are. *)
Theorem coordinates_not_finite (platform : Platform) (w : World) :
  random w (drawn w) = S754_zero false ->
  (exists c, generateLatitude w = (inr c, draws 2 w) /\ isFinite c = false)
  /\ (exists c, generateLongitude w = (inr c, draws 2 w) /\ isFinite c = false).
Proof.
  intros Hr. destruct (generateCoordinate_zero platform w Hr) as [c [Hc Hf]].
  split.
  - exists (Number_sub c (Number_literal 385290245 7)). split.
    + unfold generateLatitude, bind, ret. rewrite Hc. reflexivity.
    + apply Number_sub_not_finite; [exact Hf | reflexivity].
  - exists (Number_sub c (Number_literal 37506985 7)). split.
    + unfold generateLongitude, bind, ret. rewrite Hc. reflexivity.
    + apply Number_sub_not_finite; [exact Hf | reflexivity].
Qed.

Lemma coordinates_not_finite_witness :
  exists c,
    @generateLatitude (stubPlatform Undefined)
      {| opts := DEFAULT; random := fun _ => S754_zero false; drawn := 0;
         now := now (stubWorld 0 0); responses := responses (stubWorld 0 0);
         requests := 0; trace := [] |}
    = (inr c, draws 2 {| opts := DEFAULT; random := fun _ => S754_zero false;
                         drawn := 0; now := now (stubWorld 0 0);
                         responses := responses (stubWorld 0 0);
                         requests := 0; trace := [] |})
    /\ isFinite c = false.
Proof.
  exact (proj1 (coordinates_not_finite (stubPlatform Undefined)
                  {| opts := DEFAULT; random := fun _ => S754_zero false;
                     drawn := 0; now := now (stubWorld 0 0);
                     responses := responses (stubWorld 0 0);
                     requests := 0; trace := [] |} eq_refl)).
Defined.

(** ** More on the response decoder *)

Lemma Get_error (v : value) (key : jsstring) (e : exception) :
  Get v key = inl e -> e = TypeError /\ v = Undefined.
Proof.
  destruct v; cbn [Get]; intros H; try discriminate H.
  injection H as <-. split; reflexivity.
Qed.

Lemma getPath_error (path : list jsstring) :
  forall (v : value) (e : exception), getPath v path = inl e -> e = TypeError.
Proof.
  induction path as [|key path IH]; intros v e H; cbn [getPath] in H.
  - discriminate H.
  - destruct (Get v key) as [e'|v'] eqn:Hg.
    + injection H as <-. apply (Get_error _ _ _ Hg).
    + apply (IH v' e H).
Qed.

(** The decoder, once the document is parsed: the path, then the
    status code. *)
Lemma normalize_parsed (platform : Platform) (returnedXML : jsstring)
  (document : value) :
  parseString returnedXML = inr document ->
  normalize returnedXML
  = match getPath document responsePath with
    | inl e => inl e
    | inr envelope =>
        match Get envelope (u "codigoRetorno") with
        | inl e => inl e
        | inr codigoRetorno =>
            match parseInt codigoRetorno with
            | Some 0 => inr envelope
            | _ =>
                match Get envelope (u "mensagemRetorno") with
                | inl e => inl e
                | inr mensagemRetorno => inl (ErrorOf mensagemRetorno)
                end
            end
        end
    end.
Proof.
  intros Hp. unfold normalize. rewrite Hp. cbn [rbind].
  unfold responsePath. cbn [getPath].
  destruct (Get document (u "soap:Envelope")) as [?|v1]; [reflexivity|]. cbn [rbind].
  destruct (Get v1 (u "soap:Body")) as [?|v2]; [reflexivity|]. cbn [rbind].
  destruct (Get v2 (u "ns2:getStatusResponse")) as [?|v3]; [reflexivity|]. cbn [rbind].
  destruct (Get v3 (u "return")) as [?|v4]; [reflexivity|]. cbn [rbind].
  destruct (Get v4 (u "codigoRetorno")) as [?|code]; [reflexivity|]. cbn [rbind].
  destruct (parseInt code) as [[|p|p]|]; try reflexivity;
    destruct (Get v4 (u "mensagemRetorno")); reflexivity.
Qed.

(** X13: [normalize] returns a record only for a document that has the
    whole path and whose status code reads as zero; the record is the
    return value at the end of the path. *)
Theorem normalize_success (platform : Platform) (returnedXML : jsstring)
  (record : value) :
  normalize returnedXML = inr record ->
  exists document codigoRetorno,
    parseString returnedXML = inr document
    /\ getPath document responsePath = inr record
    /\ Get record (u "codigoRetorno") = inr codigoRetorno
    /\ parseInt codigoRetorno = Some 0.
Proof.
  intros H. destruct (parseString returnedXML) as [e|document] eqn:Hp.
  - unfold normalize in H. rewrite Hp in H. discriminate H.
  - rewrite (normalize_parsed platform returnedXML document Hp) in H.
    destruct (getPath document responsePath) as [e|envelope] eqn:Hg; [discriminate H|].
    destruct (Get envelope (u "codigoRetorno")) as [e|code] eqn:Hc; [discriminate H|].
    destruct (parseInt code) as [[|p|p]|] eqn:Hn;
      try (destruct (Get envelope (u "mensagemRetorno")); discriminate H).
    injection H as <-. exists document, code.
    repeat split; first [assumption | reflexivity].
Qed.

Lemma normalize_success_witness :
  exists document codigoRetorno,
    @parseString (stubPlatform (responseDocument (u "0") [])) (u "<response/>")
    = inr document
    /\ getPath document responsePath
       = inr (Obj [ (u "codigoRetorno", Str (u "0"));
                    (u "mensagemRetorno", Str []);
                    (u "modelo", Str (u "FUSCA")) ])
    /\ Get (Obj [ (u "codigoRetorno", Str (u "0"));
                  (u "mensagemRetorno", Str []);
                  (u "modelo", Str (u "FUSCA")) ]) (u "codigoRetorno")
       = inr codigoRetorno
    /\ @parseInt (stubPlatform (responseDocument (u "0") [])) codigoRetorno = Some 0.
Proof.
  exact (normalize_success (stubPlatform (responseDocument (u "0") []))
           (u "<response/>") _ eq_refl).
Defined.

(** X14: when an element of the path is missing from the parsed
    document, or the return value itself, [normalize] fails with a
    TypeError, whatever else the document holds. *)
Theorem normalize_missing_path (platform : Platform) (returnedXML : jsstring)
  (document : value) :
  parseString returnedXML = inr document ->
  (exists e, getPath document responsePath = inl e)
  \/ getPath document responsePath = inr Undefined ->
  normalize returnedXML = inl TypeError.
Proof.
  intros Hp H. rewrite (normalize_parsed platform returnedXML document Hp).
  destruct H as [[e He]|Hu].
  - rewrite He. rewrite (getPath_error _ _ _ He). reflexivity.
  - rewrite Hu. reflexivity.
Qed.

Lemma normalize_missing_path_witness :
  @normalize (stubPlatform (Obj [ (u "soap:Envelope", Obj [ (u "soap:Fault", Str []) ]) ]))
    (u "<response/>")
  = inl TypeError.
Proof.
  apply (normalize_missing_path
           (stubPlatform (Obj [ (u "soap:Envelope", Obj [ (u "soap:Fault", Str []) ]) ]))
           (u "<response/>") _ eq_refl).
  left. exists TypeError. reflexivity.
Defined.

(** X15: a return value without a status code counts as a failure: the
    error carries the status message, and no message at all when that
    is missing too. *)
Theorem normalize_missing_code (platform : Platform) (returnedXML : jsstring)
  (document : value) (fields : list (jsstring * value)) :
  parseString returnedXML = inr document ->
  getPath document responsePath = inr (Obj fields) ->
  lookup (u "codigoRetorno") fields = Undefined ->
  normalize returnedXML
  = inl (Error match lookup (u "mensagemRetorno") fields with
               | Undefined => []
               | message => ToString message
               end).
Proof.
  intros Hp Hpath Hc. rewrite (normalize_parsed platform returnedXML document Hp).
  rewrite Hpath. cbn [Get]. rewrite Hc.
  change (parseInt Undefined) with (@None Z). unfold ErrorOf.
  destruct (lookup (u "mensagemRetorno") fields); reflexivity.
Qed.

Lemma normalize_missing_code_witness :
  @normalize
    (stubPlatform
       (Obj [ (u "soap:Envelope",
               Obj [ (u "soap:Body",
                      Obj [ (u "ns2:getStatusResponse",
                             Obj [ (u "return",
                                    Obj [ (u "mensagemRetorno", Str (u "Erro")) ]) ]) ]) ]) ]))
    (u "<response/>")
  = inl (Error (u "Erro")).
Proof.
  exact (normalize_missing_code
           (stubPlatform
              (Obj [ (u "soap:Envelope",
                      Obj [ (u "soap:Body",
                             Obj [ (u "ns2:getStatusResponse",
                                    Obj [ (u "return",
                                           Obj [ (u "mensagemRetorno",
                                                  Str (u "Erro")) ]) ]) ]) ]) ]))
           (u "<response/>") _
           [ (u "mensagemRetorno", Str (u "Erro")) ] eq_refl eq_refl eq_refl).
Defined.
